(** * radicli: type resolution, registration and parsing

    A shallow embedding of [radicli/util.py] and [radicli/__init__.py].
    Python objects that the code only passes around (annotations, converter
    callables, default values) are modelled by the inductive types below;
    dictionaries keep their insertion order, so they are association
    lists; a raised exception is the [Raise] branch of [result]. *)

From Stdlib Require Import List String Ascii Bool ZArith Lia Permutation.
Import ListNotations.
Open Scope string_scope.
Open Scope list_scope.

Set Warnings "-register-all".

(** Python's [Optional[X]] as a field type. *)
Abbreviation Optional := option (only parsing).

(** ** Python values and annotation objects *)

(** Values that occur as parameter defaults and as [Literal] options.
    [Ellipsis] is the object the code uses as the placeholder for an unset
    default; [PyNone] is Python's [None]. *)
Inductive pyvalue : Type :=
| Ellipsis
| PyNone
| PyBool (b : bool)
| PyInt (z : Z)
| PyStr (s : string)
| PyList (l : list pyvalue)
| PyObject (cls : string) (repr : string).

(** Plain classes.  [Cother] stands for every class or other object that
    has no typing origin (bytes, dict, a user class, [Any], a string
    annotation, the marker of a missing annotation). *)
Inductive pyclass : Type :=
| Cstr | Cint | Cfloat | CPath | Cbool | CNoneType
| Cother (name : string).

(** The origins [typing.get_origin] returns for forms whose arguments are
    types. *)
Inductive pyorigin : Type :=
| Olist            (* list: List[...] and list[...] *)
| OIterable        (* collections.abc.Iterable *)
| OUnion           (* typing.Union, also Optional[...] *)
| Oother (name : string).   (* dict, tuple, Sequence, ... *)

(** Objects that occur as [param_type], an annotation or a converter:
    a class, a plain function, [Literal[args]] (origin [Literal], the
    arguments are values) and [origin[args]].  Classes and functions have
    no origin. *)
Inductive pytype : Type :=
| Plain (c : pyclass)
| Function (name : string)
| Literal (args : list pyvalue)
| Alias (origin : pyorigin) (args : list pytype).

Definition pyclass_eq_dec (a b : pyclass) : {a = b} + {a <> b}.
Proof. decide equality; apply string_dec. Defined.

(** [a == b] where one side is a plain class object: classes compare by
    identity. *)
Definition class_eqb (a b : pytype) : bool :=
  match a, b with
  | Plain c, Plain c' => if pyclass_eq_dec c c' then true else false
  | _, _ => false
  end.

(** [x != ...] *)
Definition not_ellipsis (x : pyvalue) : bool :=
  match x with
  | Ellipsis => false
  | _ => true
  end.

(** [type(v)] *)
Definition type_of (v : pyvalue) : pytype :=
  match v with
  | Ellipsis => Plain (Cother "ellipsis")
  | PyNone => Plain CNoneType
  | PyBool _ => Plain Cbool
  | PyInt _ => Plain Cint
  | PyStr _ => Plain Cstr
  | PyList _ => Plain (Cother "list")
  | PyObject cls _ => Plain (Cother cls)
  end.

(** Truthiness of an optional string: [None] and [""] are falsy. *)
Definition truthy (s : Optional string) : bool :=
  match s with
  | None => false
  | Some EmptyString => false
  | Some _ => true
  end.

(** ** Exceptions *)

Inductive exn : Type :=
| UnsupportedTypeError (arg : string) (annot : pytype)
| KeyError (key : string).

Inductive result (A : Type) : Type :=
| Ok (a : A)
| Raise (e : exn).
Arguments Ok {A} a.
Arguments Raise {A} e.

Definition bind {A B : Type} (r : result A) (k : A -> result B) : result B :=
  match r with
  | Ok a => k a
  | Raise e => Raise e
  end.

Notation "x <- r ;; k" := (bind r (fun x => k))
  (at level 61, r at next level, right associativity).

Fixpoint mapM {A B : Type} (f : A -> result B) (l : list A) : result (list B) :=
  match l with
  | [] => Ok []
  | x :: r => y <- f x ;; ys <- mapM f r ;; Ok (y :: ys)
  end.

(** ** Dictionaries in insertion order *)

Definition dict (V : Type) : Type := list (string * V).

Fixpoint dict_get {V : Type} (d : dict V) (k : string) : Optional V :=
  match d with
  | [] => None
  | (k', v) :: r => if string_dec k' k then Some v else dict_get r k
  end.

Definition dict_mem {V : Type} (d : dict V) (k : string) : bool :=
  match dict_get d k with
  | Some _ => true
  | None => false
  end.

(** [d[k] = v]: an existing key keeps its place, a new one goes last. *)
Fixpoint dict_set {V : Type} (d : dict V) (k : string) (v : V) : dict V :=
  match d with
  | [] => [(k, v)]
  | (k', v') :: r =>
      if string_dec k' k then (k, v) :: r else (k', v') :: dict_set r k v
  end.

Definition keys {V : Type} (d : dict V) : list string := map fst d.

(** [d[k]], raising [KeyError] on a missing key. *)
Definition dict_item {V : Type} (d : dict V) (k : string) : result V :=
  match dict_get d k with
  | Some v => Ok v
  | None => Raise (KeyError k)
  end.

(** ** util.py *)

Definition BASE_TYPES : list pytype :=
  [Plain Cstr; Plain Cint; Plain Cfloat; Plain CPath].

(** [x in l] for a class object [x]. *)
Definition class_in (x : pytype) (l : list pytype) : bool :=
  existsb (class_eqb x) l.

(** Field for defining the CLI argument in the decorator. *)
Module Arg.
Record t : Type := mk {
  option : Optional string;
  short : Optional string;
  help : Optional string;
  converter : Optional pytype
}.
(** [Arg()] *)
Definition empty : t := mk None None None None.
End Arg.

(** Internal argument record defining the values passed to argparse. *)
Module ArgparseArg.
Record t : Type := mk {
  id : string;
  name : Optional string;
  shorthand : Optional string;
  type : Optional pytype;
  default : pyvalue;
  action : Optional string;
  choices : Optional (list pyvalue);
  help : Optional string
}.
Definition set_type (a : t) (x : Optional pytype) : t :=
  mk (id a) (name a) (shorthand a) x (default a) (action a) (choices a) (help a).
Definition set_default (a : t) (x : pyvalue) : t :=
  mk (id a) (name a) (shorthand a) (type a) x (action a) (choices a) (help a).
Definition set_action (a : t) (x : Optional string) : t :=
  mk (id a) (name a) (shorthand a) (type a) (default a) x (choices a) (help a).
Definition set_choices (a : t) (x : Optional (list pyvalue)) : t :=
  mk (id a) (name a) (shorthand a) (type a) (default a) (action a) x (help a).
Definition set_help (a : t) (x : Optional string) : t :=
  mk (id a) (name a) (shorthand a) (type a) (default a) (action a) (choices a) x.
End ArgparseArg.

(** Check a list of types for the next available basic type. *)
Definition find_base_type (args : list pytype) (default_type : pytype) : pytype :=
  match find (fun base_type => class_in base_type args) BASE_TYPES with
  | Some base_type => base_type
  | None => default_type
  end.

(** Generate an argument to add to argparse and interpret types if
    possible.  The recursion of the [Union] branch is on the first variant
    that is not [type(None)]; [first_variant] walks the variant list to
    it, which is what taking the head of the filtered list does (lemma
    [get_arg_Union] below). *)
Fixpoint get_arg (param : string) (param_type : pytype)
    (name shorthand help : Optional string) (default : pyvalue)
    (skip_resolve : bool) {struct param_type} : result ArgparseArg.t :=
  let arg :=
    ArgparseArg.mk param name shorthand (Some param_type) Ellipsis None None help in
  let arg :=
    if not_ellipsis default then ArgparseArg.set_default arg default else arg in
  if skip_resolve then Ok arg
  else if class_in param_type BASE_TYPES then
    Ok (ArgparseArg.set_type arg (Some param_type))
  else if class_eqb param_type (Plain Cbool) then
    Ok (ArgparseArg.set_action
          (ArgparseArg.set_default (ArgparseArg.set_type arg None) (PyBool false))
          (Some "store_true"))
  else
    match param_type with
    | Plain _ | Function _ => Raise (UnsupportedTypeError param param_type)
    | Literal args =>
        match args with
        | first :: _ =>
            Ok (ArgparseArg.set_type
                  (ArgparseArg.set_choices arg (Some args))
                  (Some (type_of first)))
        | [] => Raise (UnsupportedTypeError param param_type)
        end
    | Alias origin args =>
        match origin with
        | Olist | OIterable =>
            Ok (ArgparseArg.set_action
                  (ArgparseArg.set_type arg (Some (find_base_type args (Plain Cstr))))
                  (Some "append"))
        | OUnion =>
            (fix first_variant (l : list pytype) : result ArgparseArg.t :=
               match l with
               | [] => Raise (UnsupportedTypeError param param_type)
               | a :: rest =>
                   if class_eqb a (Plain CNoneType) then first_variant rest
                   else get_arg param a name None help default false
               end) args
        | Oother _ => Raise (UnsupportedTypeError param param_type)
        end
    end.

(** [s.rsplit(sep, 1)[-1]]: what follows the last [sep], all of [s] when
    there is none. *)
Fixpoint contains (sep : ascii) (s : string) : bool :=
  match s with
  | EmptyString => false
  | String c r => if ascii_dec c sep then true else contains sep r
  end.

Fixpoint rsplit_last (sep : ascii) (s : string) : string :=
  match s with
  | EmptyString => EmptyString
  | String c r =>
      if contains sep r then rsplit_last sep r
      else if ascii_dec c sep then r else s
  end.

(** [o or ''] *)
Definition or_empty (o : Optional string) : string :=
  match o with
  | Some s => s
  | None => ""
  end.

(** [f"({type_name}) {help or ''}"] *)
Definition help_text (type_name : string) (help : Optional string) : string :=
  ("(" ++ type_name ++ ") " ++ or_empty help)%string.

(** [o is not None] *)
Definition is_not_None {A : Type} (o : Optional A) : bool :=
  match o with
  | Some _ => true
  | None => false
  end.

(** Values of the keyword dictionary handed to [add_argument]. *)
Inductive kwarg : Type :=
| KwValue (v : pyvalue)
| KwCallable (t : pytype).

Definition of_optional (o : Optional string) : pyvalue :=
  match o with
  | Some s => PyStr s
  | None => PyNone
  end.

(** [if o: args.append(o)] *)
Definition append_if (args : list string) (o : Optional string) : list string :=
  match o with
  | Some s => if truthy o then args ++ [s] else args
  | None => args
  end.

(** Helper method to generate args and kwargs for [Parser.add_argument]. *)
Definition to_argparse (self : ArgparseArg.t) : list string * dict kwarg :=
  let args := [] in
  let args := append_if args (ArgparseArg.name self) in
  let args := append_if args (ArgparseArg.shorthand self) in
  let kwargs :=
    [ ("dest", KwValue (PyStr (ArgparseArg.id self)));
      ("action", KwValue (of_optional (ArgparseArg.action self)));
      ("help", KwValue (of_optional (ArgparseArg.help self))) ] in
  let kwargs :=
    if not_ellipsis (ArgparseArg.default self)
    then dict_set kwargs "default" (KwValue (ArgparseArg.default self))
    else kwargs in
  let kwargs :=
    if negb (truthy (ArgparseArg.name self)) && not_ellipsis (ArgparseArg.default self)
    then dict_set kwargs "nargs" (KwValue (PyStr "?"))
    else kwargs in
  let kwargs :=
    match ArgparseArg.type self with
    | Some t => dict_set kwargs "type" (KwCallable t)
    | None => kwargs
    end in
  let kwargs :=
    match ArgparseArg.choices self with
    | Some c => dict_set kwargs "choices" (KwValue (PyList c))
    | None => kwargs
    end in
  (args, kwargs).

(** ** __init__.py *)

(** One entry of [signature(cli_func).parameters]; [default = None] is
    [Parameter.empty]. *)
Module Param.
Record t : Type := mk {
  name : string;
  annotation : pytype;
  default : Optional pyvalue
}.
End Param.

(** A command function, as far as the code looks at it: its signature and
    its docstring. *)
Module Callable.
Record t : Type := mk {
  parameters : list Param.t;
  doc : Optional string
}.
End Callable.

Module Command.
Record t : Type := mk {
  name : string;
  func : Callable.t;
  args : list ArgparseArg.t;
  description : Optional string;
  allow_extra : bool
}.
End Command.

(** The state of a [Radicli] object.  [converters] is the lookup of the
    converter table ([self.converters.get(key)] without its fallback);
    [registry] is the catalogue registry, a store from names to
    commands in which a later registration replaces an earlier one. *)
Module Radicli.
Record t : Type := mk {
  name : string;
  help : Optional string;
  converters : pytype -> Optional pytype;
  extra_key : string;
  registry : dict Command.t
}.
Definition register (self : t) (n : string) (cmd : Command.t) : t :=
  mk (name self) (help self) (converters self) (extra_key self)
     (dict_set (registry self) n cmd).
End Radicli.

(** [self.converters.get(key, default)] *)
Definition converters_get (self : Radicli.t) (key : pytype)
    (default : Optional pytype) : Optional pytype :=
  match Radicli.converters self key with
  | Some c => Some c
  | None => default
  end.

(** [Radicli(name)] with its default arguments and an empty registry. *)
Definition new_Radicli (name : string) : Radicli.t :=
  Radicli.mk name None (fun _ => None) "_extra" [].

(** The argparse parser being built: its description and the
    [add_argument] calls made so far. *)
Module ArgumentParser.
Record t : Type := mk {
  description : Optional string;
  arguments : list (list string * dict kwarg)
}.
Definition add_argument (p : t) (a : list string * dict kwarg) : t :=
  mk (description p) (arguments p ++ [a]).
End ArgumentParser.

(** The exit of the process by [parser.error]. *)
Inductive outcome (A : Type) : Type :=
| Parsed (a : A)
| SystemExit (status : Z).
Arguments Parsed {A} a.
Arguments SystemExit {A} status.

Section Runtime.

(** What the Python runtime gives for a type object: its [__name__]
    attribute when it has one, and its [str]. *)
Variable dunder_name : pytype -> Optional string.
Variable str : pytype -> string.

(** argparse's [parse_known_args]: the namespace it binds and the tokens
    it did not recognise, or the exit of the process. *)
Variable parse_known_args :
  ArgumentParser.t -> list string -> outcome (dict pyvalue * list string).

(** argparse's [parse_args] is [parse_known_args] followed by
    [self.error] (exit status 2) when tokens are left over. *)
Definition parse_args (p : ArgumentParser.t) (args : list string)
  : outcome (dict pyvalue) :=
  match parse_known_args p args with
  | Parsed (namespace, []) => Parsed namespace
  | Parsed (_, _ :: _) => SystemExit 2
  | SystemExit status => SystemExit status
  end.

(** Get a pretty-printed string for a type. *)
Definition get_type_name (arg_type : pytype) : string :=
  match dunder_name arg_type with
  | Some n => n
  | None => rsplit_last "." (str arg_type)
  end.

(** First loop of [cli_wrapper]: one step per signature parameter. *)
Definition signature_step
    (st : dict pytype * dict pyvalue * dict Arg.t) (p : Param.t)
  : dict pytype * dict pyvalue * dict Arg.t :=
  let '(sig_types, sig_defaults, args) := st in
  let param_name := Param.name p in
  let sig_types := dict_set sig_types param_name (Param.annotation p) in
  let sig_defaults :=
    dict_set sig_defaults param_name
      match Param.default p with
      | Some v => v
      | None => Ellipsis   (* placeholder for unset defaults *)
      end in
  let args :=
    if dict_mem args param_name then args
    else dict_set args param_name Arg.empty in
  (sig_types, sig_defaults, args).

(** Second loop of [cli_wrapper]: the descriptor of one item of [args].
    A converter is a function or a class, so it is truthy and
    [converter or sig_types[param]] is the converter when there is one. *)
Definition cli_arg (self : Radicli.t)
    (sig_types : dict pytype) (sig_defaults : dict pyvalue)
    (item : string * Arg.t) : result ArgparseArg.t :=
  let '(param, arg) := item in
  declared <- dict_item sig_types param ;;
  let converter := converters_get self declared (Arg.converter arg) in
  let arg_type :=
    match converter with
    | Some c => c
    | None => declared
    end in
  default <- dict_item sig_defaults param ;;
  a <- get_arg param arg_type (Arg.option arg) (Arg.short arg) (Arg.help arg)
         default (is_not_None converter) ;;
  Ok (ArgparseArg.set_help a
        (Some (help_text (get_type_name arg_type) (ArgparseArg.help a)))).

Definition cli_wrapper (self : Radicli.t) (name : string) (args : dict Arg.t)
    (allow_extra : bool) (cli_func : Callable.t) : result Radicli.t :=
  let '(sig_types, sig_defaults, args) :=
    fold_left signature_step (Callable.parameters cli_func) ([], [], args) in
  cli_args <- mapM (cli_arg self sig_types sig_defaults) args ;;
  let cmd :=
    Command.mk name cli_func cli_args (Callable.doc cli_func) allow_extra in
  Ok (Radicli.register self name cmd).

Definition _command := cli_wrapper.

(** The decorator used to wrap command functions. *)
Definition command (self : Radicli.t) (name : string) (args : dict Arg.t) :=
  _command self name args false.

(** The same, for commands that take additional arguments. *)
Definition command_with_extra (self : Radicli.t) (name : string)
    (args : dict Arg.t) :=
  _command self name args true.

(** The [add_argument] loop of [parse]. *)
Definition build_parser (self : Radicli.t) (arg_info : list ArgparseArg.t)
    (description : Optional string) : ArgumentParser.t :=
  fold_left
    (fun p arg =>
       if string_dec (ArgparseArg.id arg) (Radicli.extra_key self) then p
       else ArgumentParser.add_argument p (to_argparse arg))
    arg_info (ArgumentParser.mk description []).

(** Parse a list of arguments. *)
Definition parse (self : Radicli.t) (args : list string)
    (arg_info : list ArgparseArg.t) (description : Optional string)
    (allow_extra : bool) : outcome (dict pyvalue) :=
  let p := build_parser self arg_info description in
  if allow_extra then
    match parse_known_args p args with
    | Parsed (namespace, extra) =>
        Parsed (dict_set namespace (Radicli.extra_key self)
                  (PyList (map PyStr extra)))
    | SystemExit status => SystemExit status
    end
  else parse_args p args.

End Runtime.

(** ** Dispatch *)

(** What [run] does, seen from outside: the strings it prints, the call
    of the command function with the parsed values as keyword arguments,
    the exit of the process by the parser, or the failure of
    [registry.get] on a name that is not registered. *)
Inductive run_effect : Type :=
| Prints (lines : list string)
| Calls (func : Callable.t) (values : dict pyvalue)
| Exits (status : Z)
| NotRegistered (command : string).

Definition newline : string := String (ascii_of_nat 10) EmptyString.
Definition tab : string := String (ascii_of_nat 9) EmptyString.

(** The help branch of [run]: the help text between two newlines when
    there is one, then the commands of the registry, one per line. *)
Definition command_line (entry : string * Command.t) : string :=
  (fst entry ++ tab ++ or_empty (Command.description (snd entry)))%string.

Definition print_help (self : Radicli.t) : list string :=
  (if truthy (Radicli.help self)
   then [(newline ++ or_empty (Radicli.help self) ++ newline)%string]
   else [])
  ++ match Radicli.registry self with
     | [] => []
     | commands => "Available commands:" :: map command_line commands
     end.

Section Dispatch.

Variable parse_known_args :
  ArgumentParser.t -> list string -> outcome (dict pyvalue * list string).

(** Run the CLI on [sys.argv]. *)
Definition run (self : Radicli.t) (argv : list string) : run_effect :=
  match argv with
  | [] | [_] => Prints (print_help self)
  | _ :: command :: args =>
      if String.eqb command "--help" then Prints (print_help self)
      else
        match dict_get (Radicli.registry self) command with
        | None => NotRegistered command
        | Some cmd =>
            match parse parse_known_args self args (Command.args cmd)
                    (Command.description cmd) (Command.allow_extra cmd) with
            | Parsed values => Calls (Command.func cmd) values
            | SystemExit status => Exits status
            end
        end
  end.

End Dispatch.

(** ** Auxiliary definitions for the statements *)

(** [a != type(None)] *)
Definition not_NoneType (a : pytype) : bool := negb (class_eqb a (Plain CNoneType)).

(** The descriptor [get_arg] builds before it looks at the type. *)
Definition initial_arg (param : string) (param_type : pytype)
    (name shorthand help : Optional string) (default : pyvalue) : ArgparseArg.t :=
  ArgparseArg.mk param name shorthand (Some param_type) default None None help.

(** The three dictionaries the first loop of [cli_wrapper] leaves. *)
Definition signature_dicts (cli_func : Callable.t) (args : dict Arg.t)
  : dict pytype * dict pyvalue * dict Arg.t :=
  fold_left signature_step (Callable.parameters cli_func) ([], [], args).

Definition sig_types_of (cli_func : Callable.t) (args : dict Arg.t) : dict pytype :=
  fst (fst (signature_dicts cli_func args)).

Definition sig_defaults_of (cli_func : Callable.t) (args : dict Arg.t) : dict pyvalue :=
  snd (fst (signature_dicts cli_func args)).

Definition parameter_names (cli_func : Callable.t) : list string :=
  map Param.name (Callable.parameters cli_func).

(** The default the first loop records for a parameter. *)
Definition recorded_default (p : Param.t) : pyvalue :=
  match Param.default p with
  | Some v => v
  | None => Ellipsis
  end.

(** The three dictionaries of the first loop, each on its own. *)
Definition record_all {V : Type} (g : Param.t -> V) (ps : list Param.t)
    (d : dict V) : dict V :=
  fold_left (fun d p => dict_set d (Param.name p) (g p)) ps d.

Definition add_missing (ps : list Param.t) (args : dict Arg.t) : dict Arg.t :=
  fold_left
    (fun args p =>
       if dict_mem args (Param.name p) then args
       else dict_set args (Param.name p) Arg.empty)
    ps args.

(** The descriptors [parse] hands to [add_argument]: all but those that
    carry the reserved identifier. *)
Definition grammar_descriptors (self : Radicli.t) (arg_info : list ArgparseArg.t)
  : list ArgparseArg.t :=
  filter
    (fun arg =>
       if string_dec (ArgparseArg.id arg) (Radicli.extra_key self)
       then false else true)
    arg_info.

(** Whether argparse holds an argument added with these flag strings and
    keyword arguments as required, so that a parse in which it is not
    given ends with an error.  This is the rule of [add_argument]
    ([_get_positional_kwargs] and [_get_optional_kwargs] in argparse.py):
    an argument without flag strings is a positional, required unless
    its [nargs] is ["?"], or ["*"] with a default; an argument with flag
    strings is required only when [required=True] is passed. *)
Definition argparse_required (a : list string * dict kwarg) : bool :=
  match fst a with
  | [] =>
      match dict_get (snd a) "nargs" with
      | Some (KwValue (PyStr "?")) => false
      | Some (KwValue (PyStr "*")) => negb (dict_mem (snd a) "default")
      | _ => true
      end
  | _ :: _ =>
      match dict_get (snd a) "required" with
      | Some (KwValue (PyBool b)) => b
      | _ => false
      end
  end.

(** Whether the [store_true] action refuses these keyword arguments:
    its constructor ([_StoreTrueAction.__init__] in argparse.py) takes
    no [nargs], [type] or [choices], so [add_argument] raises
    [TypeError] when one of them is passed along with
    [action="store_true"]. *)
Definition store_true_refuses (a : list string * dict kwarg) : bool :=
  match dict_get (snd a) "action" with
  | Some (KwValue (PyStr "store_true")) =>
      dict_mem (snd a) "nargs" || dict_mem (snd a) "type"
      || dict_mem (snd a) "choices"
  | _ => false
  end.

(** A descriptor without a flag name: [not self.name]. *)
Definition positional (a : ArgparseArg.t) : Prop :=
  truthy (ArgparseArg.name a) = false.

(** The names the parser binds: the [dest] of every [add_argument] call. *)
Definition dest_of (a : list string * dict kwarg) : Optional kwarg :=
  dict_get (snd a) "dest".

(** The types the specification calls reducible: a known primitive, the
    boolean flag, a non-empty choice set, a sequence, or an optional/union
    whose first variant other than the null type is one of these. *)
Inductive reducible : pytype -> Prop :=
| reducible_primitive : forall t, In t BASE_TYPES -> reducible t
| reducible_flag : reducible (Plain Cbool)
| reducible_choices : forall v vs, reducible (Literal (v :: vs))
| reducible_sequence : forall origin args,
    origin = Olist \/ origin = OIterable -> reducible (Alias origin args)
| reducible_union : forall args v rest,
    filter not_NoneType args = v :: rest -> reducible v ->
    reducible (Alias OUnion args).

(** [get_origin(t) == Union] *)
Definition is_Union (t : pytype) : bool :=
  match t with
  | Alias OUnion _ => true
  | _ => false
  end.

(** The type at which resolution of an irreducible type stops: the type
    itself, or what the first non-null variant of a union stops at. *)
Inductive stops_at : pytype -> pytype -> Prop :=
| stops_here : forall t, is_Union t = false -> stops_at t t
| stops_empty : forall args,
    filter not_NoneType args = [] ->
    stops_at (Alias OUnion args) (Alias OUnion args)
| stops_variant : forall args v rest t,
    filter not_NoneType args = v :: rest -> stops_at v t ->
    stops_at (Alias OUnion args) t.

(** The choice [find_base_type] makes among the known primitives: the
    first entry of [BASE_TYPES] that occurs among the type arguments,
    string when none does. *)
Inductive primitive_choice (args : list pytype) : pytype -> Prop :=
| choice_found : forall before ty after,
    BASE_TYPES = before ++ ty :: after ->
    class_in ty args = true ->
    (forall b, In b before -> class_in b args = false) ->
    primitive_choice args ty
| choice_default :
    (forall b, In b BASE_TYPES -> class_in b args = false) ->
    primitive_choice args (Plain Cstr).

(** The scan in the order of the type arguments: the first of them that
    is a known primitive, else string. *)
Definition first_known_primitive (args : list pytype) : pytype :=
  match find (fun a => class_in a BASE_TYPES) args with
  | Some a => a
  | None => Plain Cstr
  end.

(** ** A sample runtime for the examples *)

Definition class_name (c : pyclass) : string :=
  match c with
  | Cstr => "str" | Cint => "int" | Cfloat => "float" | CPath => "Path"
  | Cbool => "bool" | CNoneType => "NoneType"
  | Cother n => n
  end.

(** Classes and functions have a [__name__]; here the typing forms have
    none. *)
Definition sample_name (t : pytype) : Optional string :=
  match t with
  | Plain c => Some (class_name c)
  | Function n => Some n
  | _ => None
  end.

Definition sample_str (t : pytype) : string :=
  match t with
  | Plain c => class_name c
  | Function n => n
  | Literal _ => "typing.Literal"
  | Alias Olist _ => "typing.List"
  | Alias OIterable _ => "typing.Iterable"
  | Alias OUnion _ => "typing.Union"
  | Alias (Oother n) _ => n
  end.

(** A backend that knows flags only: a token that is the flag string of
    an added argument binds that argument's [dest] to [True], every other
    token is left over; each [dest] starts at the argument's default. *)
Definition kw_dest (kw : dict kwarg) : string :=
  match dict_get kw "dest" with
  | Some (KwValue (PyStr d)) => d
  | _ => ""
  end.

Definition kw_default (kw : dict kwarg) : pyvalue :=
  match dict_get kw "default" with
  | Some (KwValue v) => v
  | _ => PyNone
  end.

Definition sample_namespace (p : ArgumentParser.t) : dict pyvalue :=
  fold_left (fun ns a => dict_set ns (kw_dest (snd a)) (kw_default (snd a)))
    (ArgumentParser.arguments p) [].

Definition sample_flag (p : ArgumentParser.t) (tok : string) : Optional string :=
  option_map (fun a => kw_dest (snd a))
    (find (fun a => existsb (String.eqb tok) (fst a)) (ArgumentParser.arguments p)).

Fixpoint sample_scan (p : ArgumentParser.t) (toks : list string)
    (ns : dict pyvalue) : dict pyvalue * list string :=
  match toks with
  | [] => (ns, [])
  | tok :: rest =>
      match sample_flag p tok with
      | Some d => sample_scan p rest (dict_set ns d (PyBool true))
      | None => let '(ns', extra) := sample_scan p rest ns in (ns', tok :: extra)
      end
  end.

Definition sample_parse_known_args (p : ArgumentParser.t) (toks : list string)
  : outcome (dict pyvalue * list string) :=
  Parsed (sample_scan p toks (sample_namespace p)).

(** Annotations and functions used in the examples. *)
Definition Optional_str : pytype := Alias OUnion [Plain Cstr; Plain CNoneType].
Definition Optional_bytes : pytype := Alias OUnion [Plain (Cother "bytes"); Plain CNoneType].
Definition List_int : pytype := Alias Olist [Plain Cint].

(** [def f(a: str, b: str = None): ...] *)
Definition example_func : Callable.t :=
  Callable.mk
    [ Param.mk "a" (Plain Cstr) None;
      Param.mk "b" (Plain Cstr) (Some PyNone) ]
    None.

(** * Properties *)

(** ** Induction on annotations *)

Section pytype_induction.
Variable P : pytype -> Prop.
Hypothesis HPlain : forall c, P (Plain c).
Hypothesis HFunction : forall n, P (Function n).
Hypothesis HLiteral : forall args, P (Literal args).
Hypothesis HAlias : forall o args, Forall P args -> P (Alias o args).

Fixpoint pytype_nested_ind (t : pytype) : P t :=
  match t with
  | Plain c => HPlain c
  | Function n => HFunction n
  | Literal args => HLiteral args
  | Alias o args =>
      HAlias o args
        ((fix all (l : list pytype) : Forall P l :=
            match l with
            | [] => Forall_nil P
            | a :: r => Forall_cons a (pytype_nested_ind a) (all r)
            end) args)
  end.
End pytype_induction.

(** ** The resolver, branch by branch *)

Lemma initial_arg_eq param param_type name shorthand help default :
  (if not_ellipsis default
   then ArgparseArg.set_default
          (ArgparseArg.mk param name shorthand (Some param_type) Ellipsis None None help)
          default
   else ArgparseArg.mk param name shorthand (Some param_type) Ellipsis None None help)
  = initial_arg param param_type name shorthand help default.
Proof. destruct default; reflexivity. Qed.

Lemma get_arg_skip param param_type name shorthand help default :
  get_arg param param_type name shorthand help default true
  = Ok (initial_arg param param_type name shorthand help default).
Proof. destruct param_type; cbn; now rewrite initial_arg_eq. Qed.

Lemma get_arg_Union param args name shorthand help default :
  get_arg param (Alias OUnion args) name shorthand help default false
  = match filter not_NoneType args with
    | [] => Raise (UnsupportedTypeError param (Alias OUnion args))
    | a :: _ => get_arg param a name None help default false
    end.
Proof.
  cbn. set (e := UnsupportedTypeError param (Alias OUnion args)). clearbody e.
  induction args as [|a r IH]; [reflexivity|].
  cbn. unfold not_NoneType. destruct (class_eqb a (Plain CNoneType)); cbn; auto.
Qed.

Lemma get_arg_base param c name shorthand help default :
  class_in (Plain c) BASE_TYPES = true ->
  get_arg param (Plain c) name shorthand help default false
  = Ok (initial_arg param (Plain c) name shorthand help default).
Proof.
  intros H. cbn [get_arg]. rewrite initial_arg_eq, H. reflexivity.
Qed.

Lemma get_arg_bool param name shorthand help default :
  get_arg param (Plain Cbool) name shorthand help default false
  = Ok (ArgparseArg.mk param name shorthand None (PyBool false)
          (Some "store_true") None help).
Proof. cbn [get_arg]. rewrite initial_arg_eq. reflexivity. Qed.

Lemma get_arg_Literal param args name shorthand help default :
  get_arg param (Literal args) name shorthand help default false
  = match args with
    | first :: _ =>
        Ok (ArgparseArg.mk param name shorthand (Some (type_of first)) default
              None (Some args) help)
    | [] => Raise (UnsupportedTypeError param (Literal args))
    end.
Proof. cbn [get_arg]. rewrite initial_arg_eq. destruct args; reflexivity. Qed.

Lemma get_arg_sequence param origin args name shorthand help default :
  origin = Olist \/ origin = OIterable ->
  get_arg param (Alias origin args) name shorthand help default false
  = Ok (ArgparseArg.mk param name shorthand
          (Some (find_base_type args (Plain Cstr))) default
          (Some "append") None help).
Proof.
  intros [-> | ->]; cbn [get_arg]; rewrite initial_arg_eq; reflexivity.
Qed.

Lemma get_arg_unhandled param t name shorthand help default :
  class_in t BASE_TYPES = false ->
  class_eqb t (Plain Cbool) = false ->
  match t with
  | Plain _ | Function _ | Literal [] | Alias (Oother _) _ => True
  | _ => False
  end ->
  get_arg param t name shorthand help default false
  = Raise (UnsupportedTypeError param t).
Proof.
  intros Hb Hf Ht.
  destruct t as [c|n|[|v vs]|[| | |o] args]; try contradiction;
    cbn [get_arg]; rewrite ?Hb, ?Hf; reflexivity.
Qed.

Lemma filter_head_In (A : Type) (f : A -> bool) (l : list A) (a : A) (r : list A) :
  filter f l = a :: r -> In a l /\ f a = true.
Proof.
  intros H. apply filter_In. rewrite H. now left.
Qed.

(** What every resolved descriptor keeps of the inputs. *)
Lemma get_arg_fields t :
  forall param name shorthand help default a,
    get_arg param t name shorthand help default false = Ok a ->
    ArgparseArg.id a = param
    /\ ArgparseArg.name a = name
    /\ ArgparseArg.help a = help
    /\ (ArgparseArg.shorthand a = shorthand \/ ArgparseArg.shorthand a = None)
    /\ (ArgparseArg.action a <> Some "store_true" -> ArgparseArg.default a = default)
    /\ (ArgparseArg.action a = Some "store_true" ->
        ArgparseArg.default a = PyBool false).
Proof.
  induction t as [c|n|args|o args IH] using pytype_nested_ind;
    intros param name shorthand help default a H.
  - destruct (class_in (Plain c) BASE_TYPES) eqn:Hb.
    + rewrite get_arg_base in H by assumption. inversion H; subst; cbn.
      repeat split; auto; discriminate.
    + destruct (class_eqb (Plain c) (Plain Cbool)) eqn:Hf.
      * assert (c = Cbool) as -> by (destruct c; cbn in Hf; congruence).
        rewrite get_arg_bool in H. inversion H; subst; cbn.
        repeat split; auto. intros Hne. now contradiction Hne.
      * rewrite get_arg_unhandled in H by (auto; exact I). discriminate.
  - rewrite get_arg_unhandled in H by (auto; exact I). discriminate.
  - rewrite get_arg_Literal in H. destruct args; [discriminate|].
    inversion H; subst; cbn. repeat split; auto; discriminate.
  - destruct o.
    + rewrite get_arg_sequence in H by auto. inversion H; subst; cbn.
      repeat split; auto; discriminate.
    + rewrite get_arg_sequence in H by auto. inversion H; subst; cbn.
      repeat split; auto; discriminate.
    + rewrite get_arg_Union in H.
      destruct (filter not_NoneType args) as [|v r] eqn:Hfl; [discriminate|].
      apply filter_head_In in Hfl as [Hin _].
      rewrite Forall_forall in IH.
      destruct (IH v Hin _ _ _ _ _ _ H) as (Hid & Hn & Hh & Hs & Hd & Hflag).
      repeat split; auto. destruct Hs as [Hs | Hs]; auto.
    + rewrite get_arg_unhandled in H by (auto; exact I). discriminate.
Qed.

(** ** The projection into the backend grammar *)

Lemma to_argparse_kwargs (a : ArgparseArg.t) :
  let kwargs := snd (to_argparse a) in
  dict_get kwargs "dest" = Some (KwValue (PyStr (ArgparseArg.id a)))
  /\ dict_get kwargs "action" = Some (KwValue (of_optional (ArgparseArg.action a)))
  /\ dict_get kwargs "default"
     = (if not_ellipsis (ArgparseArg.default a)
        then Some (KwValue (ArgparseArg.default a)) else None)
  /\ dict_get kwargs "nargs"
     = (if negb (truthy (ArgparseArg.name a)) && not_ellipsis (ArgparseArg.default a)
        then Some (KwValue (PyStr "?")) else None)
  /\ dict_get kwargs "type" = option_map KwCallable (ArgparseArg.type a)
  /\ dict_get kwargs "required" = None.
Proof.
  destruct a as [i n s t d ac ch h]. unfold to_argparse. cbn [snd ArgparseArg.id
    ArgparseArg.name ArgparseArg.default ArgparseArg.type ArgparseArg.choices
    ArgparseArg.action ArgparseArg.help].
  destruct (not_ellipsis d), (truthy n), t, ch; cbn; auto 10.
Qed.

(** C10, at the failing inputs: the descriptor of [verbose: bool] without
    a flag name is positional and carries the default [False], and is
    projected with [action = "store_true"] and [nargs = "?"] together,
    which the [store_true] action refuses, so that [add_argument]
    raises; the descriptor of [xs: List[int] = None] without a flag name
    is projected with [action = "append"] and [nargs = "?"], for which
    argparse, when the argument is omitted, appends the default to the
    list. *)
Theorem positional_default_projection_fails :
  let flag :=
    ArgparseArg.mk "verbose" None None None (PyBool false) (Some "store_true")
      None None in
  let repeated :=
    ArgparseArg.mk "xs" None None (Some (Plain Cint)) PyNone (Some "append")
      None None in
  get_arg "verbose" (Plain Cbool) None None None Ellipsis false = Ok flag
  /\ positional flag
  /\ ArgparseArg.default flag <> Ellipsis
  /\ to_argparse flag
     = ([], [ ("dest", KwValue (PyStr "verbose"));
              ("action", KwValue (PyStr "store_true"));
              ("help", KwValue PyNone);
              ("default", KwValue (PyBool false));
              ("nargs", KwValue (PyStr "?")) ])
  /\ store_true_refuses (to_argparse flag) = true
  /\ get_arg "xs" List_int None None None PyNone false = Ok repeated
  /\ positional repeated
  /\ ArgparseArg.default repeated <> Ellipsis
  /\ to_argparse repeated
     = ([], [ ("dest", KwValue (PyStr "xs"));
              ("action", KwValue (PyStr "append"));
              ("help", KwValue PyNone);
              ("default", KwValue PyNone);
              ("nargs", KwValue (PyStr "?"));
              ("type", KwCallable (Plain Cint)) ]).
Proof.
  cbv zeta. repeat split; try reflexivity; discriminate.
Qed.

(** What [to_argparse] makes of a descriptor, in the backend's terms: the
    argument is required exactly when the descriptor has neither name
    nor shorthand and carries the placeholder. *)
Lemma to_argparse_required (a : ArgparseArg.t) :
  argparse_required (to_argparse a)
  = negb (truthy (ArgparseArg.name a))
    && negb (truthy (ArgparseArg.shorthand a))
    && negb (not_ellipsis (ArgparseArg.default a)).
Proof.
  destruct a as [i n s t d ac ch h].
  unfold argparse_required, to_argparse.
  cbn [fst snd ArgparseArg.id ArgparseArg.name ArgparseArg.shorthand
       ArgparseArg.default ArgparseArg.type ArgparseArg.choices
       ArgparseArg.action ArgparseArg.help].
  destruct n as [[|c n]|], s as [[|c' s]|], (not_ellipsis d), t, ch; reflexivity.
Qed.


(** ** Boolean parameters *)

(** C5: a parameter declared [bool] resolves, whatever default was
    declared, to a flag: action [store_true], no coercion type, default
    [False]; the projection hands exactly that to the backend. *)
Theorem bool_resolves_to_flag param name shorthand help default :
  exists a,
    get_arg param (Plain Cbool) name shorthand help default false = Ok a
    /\ a = ArgparseArg.mk param name shorthand None (PyBool false)
             (Some "store_true") None help
    /\ dict_get (snd (to_argparse a)) "action" = Some (KwValue (PyStr "store_true"))
    /\ dict_get (snd (to_argparse a)) "type" = None
    /\ dict_get (snd (to_argparse a)) "default" = Some (KwValue (PyBool false)).
Proof.
  eexists. split; [apply get_arg_bool|]. split; [reflexivity|].
  match goal with |- context [to_argparse ?a] =>
    destruct (to_argparse_kwargs a) as (_ & Ha & Hd & _ & Ht & _) end.
  cbn in Ha, Hd, Ht. auto.
Qed.

(** ** Optional and union types *)

(** What does hold of [Optional[str]]: it resolves as [str] does when no
    shorthand is passed on. *)
Lemma Optional_str_as_str param name shorthand help default :
  get_arg param Optional_str name shorthand help default false
  = get_arg param (Plain Cstr) name None help default false.
Proof. unfold Optional_str. now rewrite get_arg_Union. Qed.

(** C3: with a shorthand in the override, resolving [Optional[str]] and
    resolving [str] give different descriptors: the first has lost the
    shorthand, the second keeps it. *)
Theorem Optional_str_loses_shorthand :
  get_arg "x" Optional_str (Some "--x") (Some "-x") None Ellipsis false
  = Ok (ArgparseArg.mk "x" (Some "--x") None (Some (Plain Cstr)) Ellipsis
          None None None)
  /\ get_arg "x" (Plain Cstr) (Some "--x") (Some "-x") None Ellipsis false
     = Ok (ArgparseArg.mk "x" (Some "--x") (Some "-x") (Some (Plain Cstr)) Ellipsis
             None None None)
  /\ get_arg "x" Optional_str (Some "--x") (Some "-x") None Ellipsis false
     <> get_arg "x" (Plain Cstr) (Some "--x") (Some "-x") None Ellipsis false.
Proof. repeat split; try reflexivity. discriminate. Qed.

(** C9: the descriptor of a union type is the descriptor of its first
    non-null variant, resolved with the same external name, help text and
    default and with no shorthand; its shorthand is absent whatever
    shorthand was supplied.  (The default that was passed on is the
    descriptor's default unless the variant is the boolean flag.) *)
Theorem union_drops_shorthand param args name shorthand help default a :
  get_arg param (Alias OUnion args) name shorthand help default false = Ok a ->
  ArgparseArg.shorthand a = None
  /\ ArgparseArg.name a = name
  /\ ArgparseArg.help a = help
  /\ (ArgparseArg.action a <> Some "store_true" -> ArgparseArg.default a = default)
  /\ exists v rest,
       filter not_NoneType args = v :: rest
       /\ get_arg param v name None help default false = Ok a.
Proof.
  intros H. rewrite get_arg_Union in H.
  destruct (filter not_NoneType args) as [|v rest] eqn:Hf; [discriminate|].
  destruct (get_arg_fields _ _ _ _ _ _ _ H) as (_ & Hn & Hh & Hs & Hd & _).
  repeat split; auto.
  - destruct Hs; auto.
  - exists v, rest. auto.
Qed.

Lemma union_drops_shorthand_witness :
  get_arg "x" Optional_str (Some "--x") (Some "-x") (Some "text") (PyStr "d") false
  = Ok (ArgparseArg.mk "x" (Some "--x") None (Some (Plain Cstr)) (PyStr "d")
          None None (Some "text"))
  /\ ArgparseArg.shorthand
       (ArgparseArg.mk "x" (Some "--x") None (Some (Plain Cstr)) (PyStr "d")
          None None (Some "text")) = None.
Proof.
  split; [reflexivity|].
  apply (union_drops_shorthand "x" [Plain Cstr; Plain CNoneType]
           (Some "--x") (Some "-x") (Some "text") (PyStr "d")).
  reflexivity.
Defined.

(** ** Sequences *)

Lemma find_base_type_in_BASE_TYPES args :
  In (find_base_type args (Plain Cstr)) BASE_TYPES.
Proof.
  unfold find_base_type.
  destruct (find _ BASE_TYPES) eqn:Hf.
  - apply find_some in Hf. tauto.
  - now left.
Qed.

Lemma find_base_type_single T :
  find_base_type [T] (Plain Cstr) = first_known_primitive [T].
Proof.
  destruct T as [[]| | |]; reflexivity.
Qed.

(** With several type arguments, as in [list[int, str]], the scan follows
    the order of [BASE_TYPES], not the order of the arguments. *)
Example find_base_type_priority :
  find_base_type [Plain Cint; Plain Cstr] (Plain Cstr) = Plain Cstr
  /\ first_known_primitive [Plain Cint; Plain Cstr] = Plain Cint.
Proof. split; reflexivity. Qed.

Lemma find_first (A : Type) (f : A -> bool) (l : list A) (x : A) :
  find f l = Some x ->
  exists before after,
    l = before ++ x :: after
    /\ f x = true
    /\ forall b, In b before -> f b = false.
Proof.
  induction l as [|y l IH]; cbn; [discriminate|].
  destruct (f y) eqn:Hy.
  - intros H. inversion H; subst. exists [], l. cbn. tauto.
  - intros H. destruct (IH H) as (before & after & -> & Hx & Hb).
    exists (y :: before), after. cbn. repeat split; auto.
    intros b [<-|Hin]; auto.
Qed.

Lemma find_base_type_choice args :
  primitive_choice args (find_base_type args (Plain Cstr)).
Proof.
  unfold find_base_type.
  destruct (find _ BASE_TYPES) as [ty|] eqn:Hf.
  - apply find_first in Hf as (before & after & Hl & Hty & Hb).
    eapply choice_found; eauto.
  - apply choice_default. intros b Hb. exact (find_none _ _ Hf b Hb).
Qed.

(** C6, as the code has it: a sequence or iterable type resolves to a
    descriptor with action [append] whose type is the first of the known
    primitives string, integer, float, path, in this order, that occurs
    among the type arguments, string when none does; for a sequence of
    one element type [T] this is [T] when [T] is a known primitive and
    string otherwise, so a sequence of integers gives integer. *)
Theorem sequence_resolves_to_repeated param origin args name shorthand help default :
  origin = Olist \/ origin = OIterable ->
  exists ty,
    get_arg param (Alias origin args) name shorthand help default false
    = Ok (ArgparseArg.mk param name shorthand (Some ty) default
            (Some "append") None help)
    /\ primitive_choice args ty
    /\ (List.length args <= 1 -> ty = first_known_primitive args).
Proof.
  intros Ho. exists (find_base_type args (Plain Cstr)).
  rewrite get_arg_sequence by assumption.
  split; [reflexivity|]. split; [apply find_base_type_choice|].
  intros Hlen. destruct args as [|T [|U r]]; cbn in Hlen; try lia.
  - reflexivity.
  - apply find_base_type_single.
Qed.

Lemma sequence_resolves_to_repeated_witness :
  get_arg "xs" List_int (Some "--xs") None None Ellipsis false
  = Ok (ArgparseArg.mk "xs" (Some "--xs") None (Some (Plain Cint)) Ellipsis
          (Some "append") None None).
Proof.
  destruct (sequence_resolves_to_repeated "xs" Olist [Plain Cint]
              (Some "--xs") None None Ellipsis (or_introl eq_refl))
    as (ty & Hget & _ & Hty).
  rewrite (Hty (le_n 1)) in Hget. exact Hget.
Defined.

(** C6 as stated fails on [list[int, str]]: scanning the type arguments
    finds integer first, the descriptor has string.  Nor are the type
    arguments of the element type scanned: for [List[Optional[int]]]
    the descriptor has string, although integer is the first known
    primitive among the arguments of [Optional[int]]. *)
Lemma sequence_type_not_in_argument_order :
  get_arg "xs" (Alias Olist [Plain Cint; Plain Cstr]) None None None Ellipsis false
  = Ok (ArgparseArg.mk "xs" None None (Some (Plain Cstr)) Ellipsis
          (Some "append") None None)
  /\ first_known_primitive [Plain Cint; Plain Cstr] = Plain Cint
  /\ Plain Cstr <> Plain Cint
  /\ get_arg "xs" (Alias Olist [Alias OUnion [Plain Cint; Plain CNoneType]])
       None None None Ellipsis false
     = Ok (ArgparseArg.mk "xs" None None (Some (Plain Cstr)) Ellipsis
             (Some "append") None None)
  /\ first_known_primitive [Plain Cint; Plain CNoneType] = Plain Cint.
Proof. repeat split; try reflexivity. discriminate. Qed.

(** ** Unsupported types *)

Lemma class_in_BASE_TYPES_In t :
  class_in t BASE_TYPES = true <-> In t BASE_TYPES.
Proof.
  split.
  - destruct t as [[]| | |]; cbn; intros H; try discriminate; auto.
  - cbn. intros [<-|[<-|[<-|[<-|[]]]]]; reflexivity.
Qed.

Lemma not_reducible_plain c :
  class_in (Plain c) BASE_TYPES = false ->
  class_eqb (Plain c) (Plain Cbool) = false ->
  ~ reducible (Plain c).
Proof.
  intros Hb Hf H. inversion H; subst.
  - apply class_in_BASE_TYPES_In in H0. congruence.
  - discriminate.
Qed.

Lemma not_reducible_no_case t :
  ~ In t BASE_TYPES ->
  match t with
  | Function _ | Literal [] | Alias (Oother _) _ => True
  | _ => False
  end ->
  ~ reducible t.
Proof.
  intros Hb Ht H. inversion H; subst; try contradiction.
  destruct H0; subst; contradiction.
Qed.

Lemma alias_not_base o args : ~ In (Alias o args) BASE_TYPES.
Proof. cbn. intuition discriminate. Qed.

(** Resolution succeeds on the reducible types and stops with the error
    at the others. *)
Lemma get_arg_total t :
  forall param name shorthand help default,
    (reducible t
     /\ exists a, get_arg param t name shorthand help default false = Ok a)
    \/ (~ reducible t
        /\ exists t', stops_at t t'
             /\ get_arg param t name shorthand help default false
                = Raise (UnsupportedTypeError param t')).
Proof.
  induction t as [c|n|args|o args IH] using pytype_nested_ind;
    intros param name shorthand help default.
  - destruct (class_in (Plain c) BASE_TYPES) eqn:Hb.
    + left. split.
      * apply reducible_primitive. now apply class_in_BASE_TYPES_In.
      * rewrite get_arg_base by assumption. eauto.
    + destruct (class_eqb (Plain c) (Plain Cbool)) eqn:Hf.
      * assert (c = Cbool) as -> by (destruct c; cbn in Hf; congruence).
        left. split; [apply reducible_flag|]. rewrite get_arg_bool. eauto.
      * right. split; [now apply not_reducible_plain|].
        exists (Plain c). split; [apply stops_here; reflexivity|].
        apply get_arg_unhandled; auto.
  - right. split.
    + apply not_reducible_no_case; [cbn; intuition discriminate | exact I].
    + exists (Function n). split; [apply stops_here; reflexivity|].
      apply get_arg_unhandled; auto.
  - rewrite get_arg_Literal. destruct args as [|v vs].
    + right. split.
      * apply not_reducible_no_case; [cbn; intuition discriminate | exact I].
      * exists (Literal []). split; [apply stops_here; reflexivity | reflexivity].
    + left. split; [apply reducible_choices | eauto].
  - destruct o.
    + left. split; [apply reducible_sequence; auto|]. rewrite get_arg_sequence by auto. eauto.
    + left. split; [apply reducible_sequence; auto|]. rewrite get_arg_sequence by auto. eauto.
    + rewrite get_arg_Union.
      destruct (filter not_NoneType args) as [|v rest] eqn:Hf.
      * right. split.
        -- intros H. inversion H; subst.
           ++ now apply alias_not_base in H0.
           ++ destruct H1; discriminate.
           ++ congruence.
        -- exists (Alias OUnion args). split; [now apply stops_empty | reflexivity].
      * destruct (filter_head_In _ _ _ _ _ Hf) as [Hin _].
        rewrite Forall_forall in IH.
        destruct (IH v Hin param name None help default)
          as [[Hr Hok] | [Hn (t' & Hs & He)]].
        -- left. split; [eapply reducible_union; eauto | exact Hok].
        -- right. split.
           ++ intros H. inversion H; subst.
              ** now apply alias_not_base in H0.
              ** destruct H1; discriminate.
              ** rewrite Hf in H1. inversion H1; subst. contradiction.
           ++ exists t'. split; [eapply stops_variant; eauto | exact He].
    + right. split.
      * apply not_reducible_no_case; [apply alias_not_base | exact I].
      * exists (Alias (Oother name0) args). split; [apply stops_here; reflexivity|].
        apply get_arg_unhandled; auto.
Qed.

Lemma stops_at_not_union t t' :
  stops_at t t' -> is_Union t = false -> t' = t.
Proof.
  intros H Hn. inversion H; subst; auto; cbn in Hn; congruence.
Qed.

(** C7, as the code has it: without a converter the resolver raises
    [UnsupportedTypeError] exactly on the types that are not reducible,
    and returns a descriptor on all others; the error carries the
    parameter name and the type at which resolution stopped, which is the
    declared type unless that is a union, where it is what the first
    non-null variant stopped at. *)
Theorem unsupported_exactly_when_irreducible param t name shorthand help default :
  ((exists e, get_arg param t name shorthand help default false = Raise e)
   <-> ~ reducible t)
  /\ ((exists a, get_arg param t name shorthand help default false = Ok a)
      <-> reducible t)
  /\ (forall e,
        get_arg param t name shorthand help default false = Raise e ->
        exists t',
          e = UnsupportedTypeError param t'
          /\ stops_at t t'
          /\ (is_Union t = false -> t' = t)).
Proof.
  destruct (get_arg_total t param name shorthand help default)
    as [[Hr [a Ha]] | [Hn (t' & Hs & He)]].
  - repeat split.
    + intros [e He]. congruence.
    + intros Hn. contradiction.
    + auto.
    + eauto.
    + intros e He. congruence.
  - repeat split.
    + auto.
    + eauto.
    + intros [a Ha]. congruence.
    + intros Hr. contradiction.
    + intros e He'. exists t'. rewrite He in He'. inversion He'; subst.
      repeat split; auto. intros Ho. now apply stops_at_not_union.
Qed.

(** C7 as stated fails on a union: the error raised for [Optional[bytes]]
    carries [bytes], not the declared type. *)
Lemma unsupported_error_not_declared_type :
  get_arg "x" Optional_bytes None None None Ellipsis false
  = Raise (UnsupportedTypeError "x" (Plain (Cother "bytes")))
  /\ get_arg "x" Optional_bytes None None None Ellipsis false
     <> Raise (UnsupportedTypeError "x" Optional_bytes).
Proof. split; [reflexivity | discriminate]. Qed.

(** ** Dictionaries *)

Lemma dict_get_set (V : Type) (d : dict V) (k k' : string) (v : V) :
  dict_get (dict_set d k v) k' = if string_dec k k' then Some v else dict_get d k'.
Proof.
  induction d as [|[k0 v0] r IH]; cbn.
  - destruct (string_dec k k'); reflexivity.
  - destruct (string_dec k0 k) as [->|Hne]; cbn.
    + destruct (string_dec k k'); reflexivity.
    + rewrite IH. destruct (string_dec k0 k') as [->|]; [|reflexivity].
      destruct (string_dec k k'); [congruence | reflexivity].
Qed.

Lemma dict_get_set_same (V : Type) (d : dict V) (k : string) (v : V) :
  dict_get (dict_set d k v) k = Some v.
Proof. rewrite dict_get_set. destruct (string_dec k k); congruence. Qed.

Lemma dict_get_None (V : Type) (d : dict V) (k : string) :
  dict_get d k = None <-> ~ In k (keys d).
Proof.
  induction d as [|[k0 v0] r IH]; cbn.
  - tauto.
  - destruct (string_dec k0 k) as [->|Hne].
    + split; [discriminate | tauto].
    + rewrite IH. tauto.
Qed.

Lemma dict_mem_In (V : Type) (d : dict V) (k : string) :
  dict_mem d k = true <-> In k (keys d).
Proof.
  unfold dict_mem. destruct (dict_get d k) eqn:H.
  - split; [|reflexivity]. intros _.
    destruct (in_dec string_dec k (keys d)) as [|Hn]; [assumption|].
    apply dict_get_None in Hn. congruence.
  - split; [discriminate|]. intros Hin. apply dict_get_None in H. contradiction.
Qed.

Lemma dict_set_new (V : Type) (d : dict V) (k : string) (v : V) :
  dict_mem d k = false -> dict_set d k v = d ++ [(k, v)].
Proof.
  unfold dict_mem. induction d as [|[k0 v0] r IH]; cbn; [reflexivity|].
  destruct (string_dec k0 k); [discriminate|].
  intros H. now rewrite IH.
Qed.

(** ** The first loop of the decorator *)

Section dict_fold.
Context {V : Type} (g : Param.t -> V).

Lemma record_all_other ps : forall d k,
  ~ In k (map Param.name ps) -> dict_get (record_all g ps d) k = dict_get d k.
Proof.
  induction ps as [|p ps IH]; intros d k Hk; [reflexivity|].
  cbn in *. unfold record_all in IH. rewrite IH by tauto.
  rewrite dict_get_set. destruct (string_dec (Param.name p) k); tauto.
Qed.

Lemma record_all_In ps : forall d p,
  NoDup (map Param.name ps) -> In p ps ->
  dict_get (record_all g ps d) (Param.name p) = Some (g p).
Proof.
  induction ps as [|p0 ps IH]; intros d p Hnd Hin; [contradiction|].
  cbn in Hnd. apply NoDup_cons_iff in Hnd as [Hfresh Hnd].
  destruct Hin as [->|Hin].
  - cbn. fold (record_all g ps (dict_set d (Param.name p) (g p))).
    rewrite record_all_other by assumption. apply dict_get_set_same.
  - cbn. now apply IH.
Qed.
End dict_fold.

Lemma signature_fold ps : forall T D A,
  fold_left signature_step ps (T, D, A)
  = (record_all Param.annotation ps T, record_all recorded_default ps D,
     add_missing ps A).
Proof.
  induction ps as [|p ps IH]; intros T D A; [reflexivity|].
  cbn [fold_left]. unfold signature_step at 2. rewrite IH. reflexivity.
Qed.

Lemma sig_types_of_In f overrides p :
  NoDup (parameter_names f) -> In p (Callable.parameters f) ->
  dict_get (sig_types_of f overrides) (Param.name p) = Some (Param.annotation p).
Proof.
  intros Hnd Hin. unfold sig_types_of, signature_dicts.
  rewrite signature_fold. cbn [fst]. now apply record_all_In.
Qed.

Lemma sig_defaults_of_In f overrides p :
  NoDup (parameter_names f) -> In p (Callable.parameters f) ->
  dict_get (sig_defaults_of f overrides) (Param.name p) = Some (recorded_default p).
Proof.
  intros Hnd Hin. unfold sig_defaults_of, signature_dicts.
  rewrite signature_fold. cbn [fst snd]. now apply record_all_In.
Qed.

Lemma sig_types_of_keys f overrides k t :
  dict_get (sig_types_of f overrides) k = Some t -> In k (parameter_names f).
Proof.
  unfold sig_types_of, signature_dicts. rewrite signature_fold. cbn [fst].
  intros H. destruct (in_dec string_dec k (parameter_names f)) as [|Hn]; [assumption|].
  rewrite record_all_other in H by assumption. discriminate.
Qed.

Lemma dict_mem_app_new (V : Type) (d : dict V) (k m : string) (v : V) :
  m <> k -> dict_mem (d ++ [(k, v)]) m = dict_mem d m.
Proof.
  intros Hne. unfold dict_mem.
  induction d as [|[k0 v0] r IH]; cbn.
  - destruct (string_dec k m); [congruence | reflexivity].
  - destruct (string_dec k0 m); [reflexivity | exact IH].
Qed.

Lemma add_missing_keys ps : forall A,
  NoDup (map Param.name ps) ->
  keys (add_missing ps A)
  = keys A ++ filter (fun n => negb (dict_mem A n)) (map Param.name ps).
Proof.
  induction ps as [|p ps IH]; intros A Hnd.
  - cbn. now rewrite app_nil_r.
  - cbn [map] in Hnd. apply NoDup_cons_iff in Hnd as [Hfresh Hnd].
    change (add_missing (p :: ps) A)
      with (add_missing ps
              (if dict_mem A (Param.name p) then A
               else dict_set A (Param.name p) Arg.empty)).
    cbn [map filter].
    destruct (dict_mem A (Param.name p)) eqn:Hm; cbn [negb].
    + now apply IH.
    + rewrite IH by assumption. rewrite dict_set_new by assumption.
      unfold keys at 1. rewrite map_app. cbn [map fst]. rewrite <- app_assoc.
      cbn [app]. do 2 f_equal. apply filter_ext_in. intros m Hin.
      rewrite dict_mem_app_new; [reflexivity|].
      intros ->. contradiction.
Qed.

(** ** The second loop of the decorator *)

Section Registration.
Variable dunder_name : pytype -> option string.
Variable str : pytype -> string.

Lemma cli_arg_unfold self sig_types sig_defaults param arg declared default :
  dict_get sig_types param = Some declared ->
  dict_get sig_defaults param = Some default ->
  cli_arg dunder_name str self sig_types sig_defaults (param, arg)
  = let converter := converters_get self declared (Arg.converter arg) in
    let arg_type := match converter with Some c => c | None => declared end in
    a <- get_arg param arg_type (Arg.option arg) (Arg.short arg) (Arg.help arg)
           default (is_not_None converter) ;;
    Ok (ArgparseArg.set_help a
          (Some (help_text (get_type_name dunder_name str arg_type)
                   (ArgparseArg.help a)))).
Proof.
  intros Ht Hd. unfold cli_arg, dict_item. rewrite Ht, Hd. reflexivity.
Qed.

(** C4: when a converter is supplied for a parameter, by an entry of
    the converter table under the declared type or, when the table has
    none, by the override, the loop body returns a descriptor for every
    declared type, supported or not: its type is the converter, its
    name and shorthand are the override's, its default is the recorded
    one, and its help is the override's help text behind the type
    name. *)
Theorem converter_bypasses_resolution self f overrides p arg c :
  NoDup (parameter_names f) ->
  In p (Callable.parameters f) ->
  Radicli.converters self (Param.annotation p) = Some c
  \/ (Radicli.converters self (Param.annotation p) = None
      /\ Arg.converter arg = Some c) ->
  cli_arg dunder_name str self (sig_types_of f overrides)
    (sig_defaults_of f overrides) (Param.name p, arg)
  = Ok (ArgparseArg.mk (Param.name p) (Arg.option arg) (Arg.short arg)
          (Some c) (recorded_default p) None None
          (Some (help_text (get_type_name dunder_name str c) (Arg.help arg))))
  /\ get_arg (Param.name p) c (Arg.option arg) (Arg.short arg) (Arg.help arg)
       (recorded_default p) true
     = Ok (ArgparseArg.mk (Param.name p) (Arg.option arg) (Arg.short arg)
             (Some c) (recorded_default p) None None (Arg.help arg)).
Proof.
  intros Hnd Hin Hsupplied.
  assert (Hc : converters_get self (Param.annotation p) (Arg.converter arg)
               = Some c).
  { unfold converters_get. destruct Hsupplied as [-> | [-> Ho]]; auto. }
  rewrite (cli_arg_unfold self _ _ _ arg _ _
             (sig_types_of_In f overrides p Hnd Hin)
             (sig_defaults_of_In f overrides p Hnd Hin)).
  cbv zeta. rewrite Hc. cbn [is_not_None]. rewrite get_arg_skip.
  split; reflexivity.
Qed.

Lemma cli_arg_fields self sig_types sig_defaults param arg a :
  cli_arg dunder_name str self sig_types sig_defaults (param, arg) = Ok a ->
  exists default,
    dict_get sig_defaults param = Some default
    /\ ArgparseArg.id a = param
    /\ (exists declared, dict_get sig_types param = Some declared)
    /\ (ArgparseArg.action a <> Some "store_true" -> ArgparseArg.default a = default)
    /\ (ArgparseArg.action a = Some "store_true" ->
        ArgparseArg.default a = PyBool false).
Proof.
  unfold cli_arg, dict_item.
  destruct (dict_get sig_types param) as [declared|] eqn:Ht; [|discriminate].
  destruct (dict_get sig_defaults param) as [default|] eqn:Hd; [|discriminate].
  cbn [bind]. intros H. exists default.
  assert (Hk : exists t, Some declared = Some t) by eauto.
  destruct (converters_get self declared (Arg.converter arg)) as [c|]; cbn in H.
  - rewrite get_arg_skip in H. cbn in H. inversion H; subst; cbn.
    repeat split; auto; discriminate.
  - destruct (get_arg param declared _ _ _ default false) as [a0|e] eqn:Hg;
      [|discriminate].
    cbn in H. inversion H; subst; cbn.
    destruct (get_arg_fields _ _ _ _ _ _ _ Hg) as (Hid & _ & _ & _ & Hdef & Hflag).
    auto.
Qed.

(** A parameter declared [bool] for which neither the table nor the
    override has a converter is registered as a flag with default
    [False], whatever default the function declares. *)
Lemma bool_parameter_is_flag self f overrides p arg :
  NoDup (parameter_names f) ->
  In p (Callable.parameters f) ->
  Param.annotation p = Plain Cbool ->
  converters_get self (Plain Cbool) (Arg.converter arg) = None ->
  cli_arg dunder_name str self (sig_types_of f overrides)
    (sig_defaults_of f overrides) (Param.name p, arg)
  = Ok (ArgparseArg.mk (Param.name p) (Arg.option arg) (Arg.short arg)
          None (PyBool false) (Some "store_true") None
          (Some (help_text (get_type_name dunder_name str (Plain Cbool))
                   (Arg.help arg)))).
Proof.
  intros Hnd Hin Hb Hc.
  rewrite (cli_arg_unfold self _ _ _ arg _ _
             (sig_types_of_In f overrides p Hnd Hin)
             (sig_defaults_of_In f overrides p Hnd Hin)).
  cbv zeta. rewrite Hb, Hc. cbn [is_not_None]. rewrite get_arg_bool.
  reflexivity.
Qed.


End Registration.



(** [def f(data: bytes = None)], with a converter in the table and with a
    converter in the override. *)
Lemma converter_bypasses_resolution_witness :
  let with_table :=
    Radicli.mk "cli" None
      (fun t => if class_eqb t (Plain (Cother "bytes"))
                then Some (Function "to_bytes") else None)
      "_extra" [] in
  let f := Callable.mk [Param.mk "data" (Plain (Cother "bytes")) (Some PyNone)] None in
  let plain := Arg.mk (Some "--data") (Some "-d") (Some "Raw data") None in
  let converting :=
    Arg.mk (Some "--data") (Some "-d") (Some "Raw data") (Some (Function "from_hex")) in
  ~ reducible (Plain (Cother "bytes"))
  /\ cli_arg sample_name sample_str with_table (sig_types_of f [("data", plain)])
       (sig_defaults_of f [("data", plain)]) ("data", plain)
     = Ok (ArgparseArg.mk "data" (Some "--data") (Some "-d")
             (Some (Function "to_bytes")) PyNone None None
             (Some "(to_bytes) Raw data"))
  /\ cli_arg sample_name sample_str (new_Radicli "cli")
       (sig_types_of f [("data", converting)])
       (sig_defaults_of f [("data", converting)]) ("data", converting)
     = Ok (ArgparseArg.mk "data" (Some "--data") (Some "-d")
             (Some (Function "from_hex")) PyNone None None
             (Some "(from_hex) Raw data")).
Proof.
  cbv zeta. split; [|split].
  - apply not_reducible_plain; reflexivity.
  - refine (proj1
      (converter_bypasses_resolution sample_name sample_str _
         (Callable.mk [Param.mk "data" (Plain (Cother "bytes")) (Some PyNone)] None)
         _ (Param.mk "data" (Plain (Cother "bytes")) (Some PyNone))
         (Arg.mk (Some "--data") (Some "-d") (Some "Raw data") None)
         (Function "to_bytes") _ _ _)).
    + repeat constructor; cbn; intuition discriminate.
    + left; reflexivity.
    + left; reflexivity.
  - refine (proj1
      (converter_bypasses_resolution sample_name sample_str (new_Radicli "cli")
         (Callable.mk [Param.mk "data" (Plain (Cother "bytes")) (Some PyNone)] None)
         _ (Param.mk "data" (Plain (Cother "bytes")) (Some PyNone))
         (Arg.mk (Some "--data") (Some "-d") (Some "Raw data")
            (Some (Function "from_hex")))
         (Function "from_hex") _ _ _)).
    + repeat constructor; cbn; intuition discriminate.
    + left; reflexivity.
    + right; split; reflexivity.
Defined.

(** ** The registered command *)

Lemma mapM_ok_each (A B : Type) (f : A -> result B) (l : list A) : forall r,
  mapM f l = Ok r -> Forall2 (fun x y => f x = Ok y) l r.
Proof.
  induction l as [|x l IH]; intros r H; cbn in H.
  - inversion H. constructor.
  - destruct (f x) as [y|e] eqn:Hx; [|discriminate]. cbn in H.
    destruct (mapM f l) as [ys|e]; [|discriminate]. cbn in H.
    inversion H; subst. constructor; auto.
Qed.

Lemma listed_then_missing_Permutation (mem : string -> bool) (ks names : list string) :
  (forall n, mem n = true <-> In n ks) ->
  NoDup ks -> NoDup names -> incl ks names ->
  Permutation (ks ++ filter (fun n => negb (mem n)) names) names.
Proof.
  intros Hmem Hk Hn Hincl. apply NoDup_Permutation; [|assumption|].
  - apply NoDup_app; [assumption | now apply NoDup_filter |].
    intros a Ha Hf. apply filter_In in Hf as [_ Hf].
    apply Hmem in Ha. rewrite Ha in Hf. discriminate.
  - intros x. rewrite in_app_iff, filter_In. split.
    + intros [Hx | [Hx _]]; auto.
    + intros Hx. destruct (mem x) eqn:Hm.
      * left. now apply Hmem.
      * right. split; [assumption | reflexivity].
Qed.

Section Registered.
Variable dunder_name : pytype -> option string.
Variable str : pytype -> string.

Lemma cli_args_ids self T D : forall items cli_args,
  mapM (cli_arg dunder_name str self T D) items = Ok cli_args ->
  map ArgparseArg.id cli_args = keys items
  /\ forall k, In k (keys items) -> exists t, dict_get T k = Some t.
Proof.
  intros items cli_args H. apply mapM_ok_each in H.
  induction H as [|[param arg] a items cli_args Hx _ IH]; cbn.
  - split; [reflexivity | contradiction].
  - destruct (cli_arg_fields _ _ _ _ _ _ _ _ Hx) as (_ & _ & Hid & Ht & _).
    destruct IH as [IHid IHt]. split.
    + now rewrite Hid, IHid.
    + intros k [<-|Hk]; auto.
Qed.

(** C1, as the code has it: the descriptors of a registered command
    are one per parameter of the function; those of the parameters the
    override mapping names come first, in the order of the mapping, and
    those of the other parameters follow in declared order.  With an
    empty mapping this is the declared order. *)
Theorem descriptors_follow_override_order
    self name overrides allow_extra f self' :
  NoDup (keys overrides) ->
  NoDup (parameter_names f) ->
  _command dunder_name str self name overrides allow_extra f = Ok self' ->
  exists cmd,
    dict_get (Radicli.registry self') name = Some cmd
    /\ Command.func cmd = f
    /\ map ArgparseArg.id (Command.args cmd)
       = keys overrides
         ++ filter (fun n => negb (dict_mem overrides n)) (parameter_names f)
    /\ Permutation (map ArgparseArg.id (Command.args cmd)) (parameter_names f)
    /\ (overrides = [] ->
        map ArgparseArg.id (Command.args cmd) = parameter_names f).
Proof.
  intros Hko Hnd H. unfold _command, cli_wrapper in H.
  rewrite signature_fold in H.
  destruct (mapM _ (add_missing (Callable.parameters f) overrides))
    as [cli_args|e] eqn:Hm; [|discriminate].
  cbn in H. inversion H; subst self'. clear H.
  eexists. split; [cbn; apply dict_get_set_same|]. cbn.
  destruct (cli_args_ids _ _ _ _ _ Hm) as [Hids Hdecl].
  rewrite add_missing_keys in Hids, Hdecl by assumption.
  fold (parameter_names f) in Hids, Hdecl.
  assert (Hincl : incl (keys overrides) (parameter_names f)).
  { intros k Hk. destruct (Hdecl k) as [t Ht]; [apply in_or_app; now left|].
    assert (Hin := sig_types_of_keys f [] k t).
    unfold sig_types_of, signature_dicts in Hin. rewrite signature_fold in Hin.
    now apply Hin. }
  repeat split; auto.
  - rewrite Hids. apply listed_then_missing_Permutation; auto.
    intros n. apply dict_mem_In.
  - intros ->. rewrite Hids. cbn. clear. induction (parameter_names f); cbn; congruence.
Qed.

End Registered.

Lemma descriptors_follow_override_order_witness :
  exists self' cmd,
    command sample_name sample_str (new_Radicli "cli") "c" [("b", Arg.empty)]
      example_func = Ok self'
    /\ dict_get (Radicli.registry self') "c" = Some cmd
    /\ map ArgparseArg.id (Command.args cmd) = ["b"; "a"].
Proof.
  eexists.
  destruct (descriptors_follow_override_order sample_name sample_str
              (new_Radicli "cli") "c" [("b", Arg.empty)] false example_func _
              ltac:(repeat constructor; cbn; intuition discriminate)
              ltac:(repeat constructor; cbn; intuition discriminate)
              eq_refl)
    as (cmd & Hget & _ & Hids & _).
  exists cmd. split; [reflexivity|]. split; [exact Hget | exact Hids].
Defined.

(** C1 as stated fails when the override mapping names a later parameter:
    for [def f(a, b)] decorated with an override for [b] only, the
    descriptors are those of [b], then [a]. *)
Lemma declared_order_not_kept :
  match command sample_name sample_str (new_Radicli "cli") "c" [("b", Arg.empty)]
          example_func with
  | Ok self' =>
      option_map (fun cmd => map ArgparseArg.id (Command.args cmd))
        (dict_get (Radicli.registry self') "c")
  | Raise _ => None
  end = Some ["b"; "a"]
  /\ parameter_names example_func = ["a"; "b"].
Proof. split; reflexivity. Qed.

(** ** Parsing with and without extra tokens *)

Lemma add_arguments_fold self arg_info : forall p,
  fold_left
    (fun p arg =>
       if string_dec (ArgparseArg.id arg) (Radicli.extra_key self) then p
       else ArgumentParser.add_argument p (to_argparse arg))
    arg_info p
  = ArgumentParser.mk (ArgumentParser.description p)
      (ArgumentParser.arguments p
       ++ map to_argparse (grammar_descriptors self arg_info)).
Proof.
  unfold grammar_descriptors.
  induction arg_info as [|arg r IH]; intros p; cbn [fold_left filter map].
  - destruct p as [d l]. cbn. now rewrite app_nil_r.
  - destruct (string_dec (ArgparseArg.id arg) (Radicli.extra_key self)).
    + apply IH.
    + rewrite IH. cbn. now rewrite <- app_assoc.
Qed.

Lemma build_parser_arguments self arg_info description :
  build_parser self arg_info description
  = ArgumentParser.mk description
      (map to_argparse (grammar_descriptors self arg_info)).
Proof. unfold build_parser. now rewrite add_arguments_fold. Qed.

Lemma reserved_key_not_a_dest self arg_info description a :
  In a (ArgumentParser.arguments (build_parser self arg_info description)) ->
  dest_of a <> Some (KwValue (PyStr (Radicli.extra_key self))).
Proof.
  rewrite build_parser_arguments. cbn [ArgumentParser.arguments].
  intros Hin. apply in_map_iff in Hin as (d & <- & Hd).
  apply filter_In in Hd as [_ Hd].
  unfold dest_of. destruct (to_argparse_kwargs d) as (-> & _).
  intros Heq. inversion Heq as [Hid]. rewrite Hid in Hd.
  destruct (string_dec _ _); [discriminate | contradiction].
Qed.

(** * Further properties of the code *)

(** ** The resolver *)

Ltac shape_done :=
  repeat split; intros; auto;
  try discriminate; try contradiction;
  try (match goal with
       | Hsome : Some _ = Some _ |- _ => inversion Hsome; subst; eauto 6
       end).

(** The shape of a descriptor resolved from a type. *)
Lemma get_arg_shape t :
  forall param name shorthand help default a,
    get_arg param t name shorthand help default false = Ok a ->
    (ArgparseArg.action a = None
     \/ ArgparseArg.action a = Some "store_true"
     \/ ArgparseArg.action a = Some "append")
    /\ (ArgparseArg.action a = Some "store_true" <-> ArgparseArg.type a = None)
    /\ (forall l, ArgparseArg.choices a = Some l ->
          ArgparseArg.action a = None
          /\ exists v vs, l = v :: vs /\ ArgparseArg.type a = Some (type_of v))
    /\ (forall t', ArgparseArg.type a = Some t' ->
          In t' BASE_TYPES
          \/ exists v vs, ArgparseArg.choices a = Some (v :: vs) /\ t' = type_of v)
    /\ (ArgparseArg.type a = Some t <-> In t BASE_TYPES).
Proof.
  induction t as [c|n|args|o args IH] using pytype_nested_ind;
    intros param name shorthand help default a H.
  - destruct (class_in (Plain c) BASE_TYPES) eqn:Hb.
    + rewrite get_arg_base in H by assumption. inversion H; subst; cbn.
      apply class_in_BASE_TYPES_In in Hb. shape_done.
    + destruct (class_eqb (Plain c) (Plain Cbool)) eqn:Hf.
      * assert (c = Cbool) as -> by (destruct c; cbn in Hf; congruence).
        rewrite get_arg_bool in H. inversion H; subst; cbn. shape_done.
        exfalso. cbn in *. intuition discriminate.
      * rewrite get_arg_unhandled in H by (auto; exact I). discriminate.
  - rewrite get_arg_unhandled in H by (auto; exact I). discriminate.
  - rewrite get_arg_Literal in H. destruct args as [|v vs]; [discriminate|].
    inversion H; subst; cbn. shape_done.
    + destruct v; discriminate.
    + exfalso. cbn in *. intuition discriminate.
  - assert (Hnb : ~ In (Alias o args) BASE_TYPES) by apply alias_not_base.
    destruct o.
    + rewrite get_arg_sequence in H by auto. inversion H; subst; cbn.
      pose proof (find_base_type_in_BASE_TYPES args) as Hin.
      shape_done; congruence.
    + rewrite get_arg_sequence in H by auto. inversion H; subst; cbn.
      pose proof (find_base_type_in_BASE_TYPES args) as Hin.
      shape_done; congruence.
    + rewrite get_arg_Union in H.
      destruct (filter not_NoneType args) as [|v r] eqn:Hfl; [discriminate|].
      apply filter_head_In in Hfl as [Hin _].
      rewrite Forall_forall in IH.
      destruct (IH v Hin _ _ _ _ _ _ H) as (Ha & Hf & Hc & Ht & _).
      split; [exact Ha|]. split; [exact Hf|]. split; [exact Hc|].
      split; [exact Ht|]. split; [|contradiction].
      intros Hty. destruct (Ht _ Hty) as [Hb | (w & ws & _ & Hw)].
      * contradiction.
      * destruct w; discriminate.
    + rewrite get_arg_unhandled in H by (auto; exact I). discriminate.
Qed.

(** X1: resolving one of the primitive types [str], [int], [float],
    [Path] gives a descriptor that takes one value, converts it with the
    type itself and keeps the name, shorthand, help and default it was
    given; of all types, only these are used as their own converter. *)
Theorem primitive_is_its_own_converter param t name shorthand help default :
  (In t BASE_TYPES ->
   get_arg param t name shorthand help default false
   = Ok (ArgparseArg.mk param name shorthand (Some t) default None None help))
  /\ (forall a,
        get_arg param t name shorthand help default false = Ok a ->
        ArgparseArg.type a = Some t -> In t BASE_TYPES).
Proof.
  split.
  - intros Hin. destruct t as [c| | |];
      try (cbn in Hin; exfalso; intuition discriminate).
    apply get_arg_base. now apply class_in_BASE_TYPES_In.
  - intros a H Ht. now apply (get_arg_shape _ _ _ _ _ _ _ H).
Qed.

(** X2: whatever the type, a resolved descriptor has one of three
    actions (none, [store_true], [append]); it has no conversion type
    exactly when it is a [store_true] flag; when it has choices they are
    not empty, it takes a single value and its conversion type is the
    class of the first choice. *)
Theorem resolved_descriptor_shape param t name shorthand help default a :
  get_arg param t name shorthand help default false = Ok a ->
  (ArgparseArg.action a = None
   \/ ArgparseArg.action a = Some "store_true"
   \/ ArgparseArg.action a = Some "append")
  /\ (ArgparseArg.action a = Some "store_true" <-> ArgparseArg.type a = None)
  /\ (forall l, ArgparseArg.choices a = Some l ->
        ArgparseArg.action a = None
        /\ exists v vs, l = v :: vs /\ ArgparseArg.type a = Some (type_of v))
  /\ (forall t', ArgparseArg.type a = Some t' ->
        In t' BASE_TYPES
        \/ exists v vs, ArgparseArg.choices a = Some (v :: vs) /\ t' = type_of v).
Proof.
  intros H. destruct (get_arg_shape _ _ _ _ _ _ _ H) as (Ha & Hf & Hc & Ht & _).
  auto.
Qed.

Lemma resolved_descriptor_shape_witness :
  get_arg "mode" (Alias OUnion [Plain CNoneType; Literal [PyStr "a"; PyStr "b"]])
    None None None PyNone false
  = Ok (ArgparseArg.mk "mode" None None (Some (Plain Cstr)) PyNone None
          (Some [PyStr "a"; PyStr "b"]) None)
  /\ (ArgparseArg.action
        (ArgparseArg.mk "mode" None None (Some (Plain Cstr)) PyNone None
           (Some [PyStr "a"; PyStr "b"]) None) = Some "store_true"
      <-> ArgparseArg.type
            (ArgparseArg.mk "mode" None None (Some (Plain Cstr)) PyNone None
               (Some [PyStr "a"; PyStr "b"]) None) = None).
Proof.
  split; [reflexivity|].
  apply (resolved_descriptor_shape "mode"
           (Alias OUnion [Plain CNoneType; Literal [PyStr "a"; PyStr "b"]])
           None None None PyNone).
  reflexivity.
Defined.

(** X3: a descriptor always carries the parameter name as its identifier
    and the external name and help text it was resolved with, in
    skip-resolve mode and for every type that resolves. *)
Theorem descriptor_keeps_identity param t name shorthand help default skip a :
  get_arg param t name shorthand help default skip = Ok a ->
  ArgparseArg.id a = param
  /\ ArgparseArg.name a = name
  /\ ArgparseArg.help a = help.
Proof.
  destruct skip.
  - rewrite get_arg_skip. intros H. inversion H; subst. auto.
  - intros H. destruct (get_arg_fields _ _ _ _ _ _ _ H) as (Hi & Hn & Hh & _).
    auto.
Qed.

Lemma descriptor_keeps_identity_witness :
  ArgparseArg.id
    (ArgparseArg.mk "xs" (Some "--xs") None (Some (Plain Cint)) Ellipsis
       (Some "append") None None) = "xs".
Proof.
  apply (descriptor_keeps_identity "xs" List_int (Some "--xs") None None
           Ellipsis false).
  reflexivity.
Defined.

(** X4: a union is resolved through its first variant other than
    [type(None)] only: two unions with the same first such variant give
    the same result, whatever their other variants and wherever the
    null type stands. *)
Theorem union_first_variant_only
    param args1 args2 v rest1 rest2 name shorthand help default :
  filter not_NoneType args1 = v :: rest1 ->
  filter not_NoneType args2 = v :: rest2 ->
  get_arg param (Alias OUnion args1) name shorthand help default false
  = get_arg param (Alias OUnion args2) name shorthand help default false.
Proof.
  intros H1 H2. rewrite !get_arg_Union, H1, H2. reflexivity.
Qed.

Lemma union_first_variant_only_witness :
  get_arg "x" (Alias OUnion [Plain Cint; Plain (Cother "bytes")])
    None None None Ellipsis false
  = get_arg "x" (Alias OUnion [Plain CNoneType; Plain Cint])
      None None None Ellipsis false.
Proof.
  apply (union_first_variant_only "x" [Plain Cint; Plain (Cother "bytes")]
           [Plain CNoneType; Plain Cint] (Plain Cint)
           [Plain (Cother "bytes")] []); reflexivity.
Defined.

(** ** The element type of a sequence *)

Lemma class_in_ext x (l1 l2 : list pytype) :
  (forall y, In y l1 <-> In y l2) -> class_in x l1 = class_in x l2.
Proof.
  intros Hext. unfold class_in.
  destruct (existsb (class_eqb x) l1) eqn:H1.
  - apply existsb_exists in H1 as (y & Hy & Hxy). symmetry.
    apply existsb_exists. exists y. split; [now apply Hext | assumption].
  - destruct (existsb (class_eqb x) l2) eqn:H2; [|reflexivity].
    apply existsb_exists in H2 as (y & Hy & Hxy).
    assert (existsb (class_eqb x) l1 = true) as H
      by (apply existsb_exists; exists y; split; [now apply Hext | assumption]).
    congruence.
Qed.

Lemma find_same (A : Type) (f g : A -> bool) (l : list A) :
  (forall x, f x = g x) -> find f l = find g l.
Proof.
  intros Hfg. induction l as [|x l IH]; cbn; [reflexivity|].
  rewrite Hfg, IH. reflexivity.
Qed.

(** X5: [find_base_type] looks only at which types occur among the
    arguments: lists with the same elements, in any order and number,
    give the same type; the result is the default or a member of
    [BASE_TYPES] that occurs among the arguments. *)
Theorem find_base_type_by_membership args1 args2 default_type :
  (forall y, In y args1 <-> In y args2) ->
  find_base_type args1 default_type = find_base_type args2 default_type
  /\ (find_base_type args1 default_type = default_type
      \/ In (find_base_type args1 default_type) BASE_TYPES
         /\ In (find_base_type args1 default_type) args1).
Proof.
  intros Hext. split.
  - unfold find_base_type. rewrite (find_same _ (fun b => class_in b args1) (fun b => class_in b args2));
      [reflexivity|]. intros b.
    now apply class_in_ext.
  - unfold find_base_type.
    destruct (find _ BASE_TYPES) as [b|] eqn:Hf; [right | now left].
    apply find_some in Hf as [Hb Hin]. split; [assumption|].
    unfold class_in in Hin. apply existsb_exists in Hin as (y & Hy & Hby).
    destruct b as [c| | |], y as [c'| | |]; cbn in Hby; try discriminate.
    destruct (pyclass_eq_dec c c'); [subst; assumption | discriminate].
Qed.

Lemma find_base_type_by_membership_witness :
  find_base_type [Plain Cint; Plain Cstr; Plain Cint] (Plain Cstr)
  = find_base_type [Plain Cstr; Plain Cint] (Plain Cstr).
Proof.
  apply (find_base_type_by_membership [Plain Cint; Plain Cstr; Plain Cint]
           [Plain Cstr; Plain Cint] (Plain Cstr)).
  intros y; cbn; tauto.
Defined.

(** ** The arguments of [add_argument] *)

Lemma append_if_spec (args : list string) (o : option string) :
  append_if args o = args ++ (if truthy o then [or_empty o] else []).
Proof.
  destruct o as [s|]; cbn; [|now rewrite app_nil_r].
  destruct s; cbn; [now rewrite app_nil_r | reflexivity].
Qed.

Lemma to_argparse_flags (a : ArgparseArg.t) :
  fst (to_argparse a)
  = (if truthy (ArgparseArg.name a) then [or_empty (ArgparseArg.name a)] else [])
    ++ (if truthy (ArgparseArg.shorthand a)
        then [or_empty (ArgparseArg.shorthand a)] else []).
Proof.
  destruct a as [i n s t d ac ch h].
  unfold to_argparse. cbn [fst ArgparseArg.name ArgparseArg.shorthand].
  now rewrite !append_if_spec.
Qed.

(** X6: the positional arguments [to_argparse] returns are the flag
    strings of the descriptor: the name, then the shorthand, each only
    when it is a non-empty string, so there are none for a descriptor
    without either.  The keyword arguments always hold [dest], [action]
    and [help], never a key twice, and no key other than these and
    [default], [nargs], [type], [choices]. *)
Theorem to_argparse_arguments (a : ArgparseArg.t) :
  fst (to_argparse a)
  = (if truthy (ArgparseArg.name a) then [or_empty (ArgparseArg.name a)] else [])
    ++ (if truthy (ArgparseArg.shorthand a)
        then [or_empty (ArgparseArg.shorthand a)] else [])
  /\ ~ In "" (fst (to_argparse a))
  /\ NoDup (keys (snd (to_argparse a)))
  /\ incl ["dest"; "action"; "help"] (keys (snd (to_argparse a)))
  /\ incl (keys (snd (to_argparse a)))
       ["dest"; "action"; "help"; "default"; "nargs"; "type"; "choices"].
Proof.
  destruct a as [i n s t d ac ch h].
  assert (Hargs :
    fst (to_argparse (ArgparseArg.mk i n s t d ac ch h))
    = (if truthy n then [or_empty n] else [])
      ++ (if truthy s then [or_empty s] else [])).
  { unfold to_argparse. cbn [fst ArgparseArg.name ArgparseArg.shorthand].
    now rewrite !append_if_spec. }
  split; [exact Hargs|]. split.
  - rewrite Hargs. cbn [ArgparseArg.name ArgparseArg.shorthand].
    destruct n as [[|c n]|], s as [[|c' s]|]; cbn; intuition discriminate.
  - unfold to_argparse. cbn [snd ArgparseArg.id ArgparseArg.name
      ArgparseArg.default ArgparseArg.type ArgparseArg.choices
      ArgparseArg.action ArgparseArg.help].
    destruct (not_ellipsis d), (truthy n), t, ch; cbn;
      (split; [repeat constructor; cbn; intuition discriminate|]);
      split; intros k Hk; cbn in *; intuition.
Qed.

(** X7: a [bool] parameter resolved without a flag name is projected
    with [action = "store_true"] and with [nargs = "?"] at once, and with
    no positional argument unless it has a shorthand: the default
    [False] of the flag counts as a default of a positional argument. *)
Theorem positional_flag_gets_nargs param name shorthand help default :
  truthy name = false ->
  exists a,
    get_arg param (Plain Cbool) name shorthand help default false = Ok a
    /\ dict_get (snd (to_argparse a)) "action" = Some (KwValue (PyStr "store_true"))
    /\ dict_get (snd (to_argparse a)) "nargs" = Some (KwValue (PyStr "?"))
    /\ fst (to_argparse a)
       = (if truthy shorthand then [or_empty shorthand] else []).
Proof.
  intros Hname. eexists. split; [apply get_arg_bool|].
  match goal with |- context [to_argparse ?a] =>
    destruct (to_argparse_kwargs a) as (_ & Ha & _ & Hn & _);
    pose proof (to_argparse_flags a) as Hargs end.
  cbv zeta in Ha, Hn.
  cbn [ArgparseArg.name ArgparseArg.default ArgparseArg.action
       ArgparseArg.shorthand not_ellipsis of_optional] in Ha, Hn, Hargs.
  rewrite Hname in Hn, Hargs. cbn [negb andb app] in Hn, Hargs.
  repeat split; assumption.
Qed.

Lemma positional_flag_gets_nargs_witness :
  to_argparse
    (ArgparseArg.mk "verbose" None None None (PyBool false) (Some "store_true")
       None None)
  = ([], [ ("dest", KwValue (PyStr "verbose"));
           ("action", KwValue (PyStr "store_true"));
           ("help", KwValue PyNone);
           ("default", KwValue (PyBool false));
           ("nargs", KwValue (PyStr "?")) ])
  /\ exists a,
       get_arg "verbose" (Plain Cbool) None None None Ellipsis false = Ok a
       /\ dict_get (snd (to_argparse a)) "nargs" = Some (KwValue (PyStr "?")).
Proof.
  split; [reflexivity|].
  destruct (positional_flag_gets_nargs "verbose" None None None Ellipsis eq_refl)
    as (a & Hget & _ & Hn & _).
  exists a. split; assumption.
Defined.

(** X21: [to_argparse] passes [nargs], always as ["?"], exactly for a
    descriptor without a name whose default is not the placeholder,
    with or without a shorthand and whatever its action; and it passes
    [default], the descriptor's own, exactly when that is not the
    placeholder. *)
Theorem nargs_only_for_nameless_default (a : ArgparseArg.t) :
  (dict_get (snd (to_argparse a)) "nargs" = Some (KwValue (PyStr "?"))
   <-> positional a /\ ArgparseArg.default a <> Ellipsis)
  /\ (dict_get (snd (to_argparse a)) "nargs" = None
      <-> ~ (positional a /\ ArgparseArg.default a <> Ellipsis))
  /\ (dict_get (snd (to_argparse a)) "default" = Some (KwValue (ArgparseArg.default a))
      <-> ArgparseArg.default a <> Ellipsis)
  /\ (dict_get (snd (to_argparse a)) "default" = None
      <-> ArgparseArg.default a = Ellipsis).
Proof.
  destruct (to_argparse_kwargs a) as (_ & _ & Hd & Hn & _).
  cbv zeta in Hd, Hn. rewrite Hd, Hn. unfold positional.
  assert (He : not_ellipsis (ArgparseArg.default a) = false
               <-> ArgparseArg.default a = Ellipsis)
    by (destruct (ArgparseArg.default a); cbn; split; intros H; congruence).
  destruct (truthy (ArgparseArg.name a)),
    (not_ellipsis (ArgparseArg.default a)); cbn;
    repeat split; try discriminate; try tauto; try congruence;
    intuition congruence.
Qed.

Lemma not_ellipsis_false (v : pyvalue) :
  not_ellipsis v = false <-> v = Ellipsis.
Proof. destruct v; cbn; split; intros H; congruence. Qed.

(** X20: by argparse's rule for [add_argument], the argument that
    [to_argparse] describes is required exactly when the descriptor has
    neither a name nor a shorthand and carries the placeholder as its
    default; a descriptor with a name or a shorthand is passed without
    [required], so it is never required, with or without a default. *)
Theorem required_only_positional_without_default (a : ArgparseArg.t) :
  (argparse_required (to_argparse a) = true
   <-> truthy (ArgparseArg.name a) = false
       /\ truthy (ArgparseArg.shorthand a) = false
       /\ ArgparseArg.default a = Ellipsis)
  /\ dict_get (snd (to_argparse a)) "required" = None.
Proof.
  split; [|apply to_argparse_kwargs].
  rewrite to_argparse_required, <- not_ellipsis_false.
  destruct (truthy (ArgparseArg.name a)), (truthy (ArgparseArg.shorthand a)),
    (not_ellipsis (ArgparseArg.default a)); cbn; intuition discriminate.
Qed.

(** ** Type names *)

Lemma contains_append sep (s1 s2 : string) :
  contains sep (s1 ++ s2) = contains sep s1 || contains sep s2.
Proof.
  induction s1 as [|c s1 IH]; cbn; [reflexivity|].
  destruct (ascii_dec c sep); [reflexivity | exact IH].
Qed.

Lemma rsplit_last_spec sep (s : string) :
  contains sep (rsplit_last sep s) = false
  /\ (contains sep s = false -> rsplit_last sep s = s)
  /\ (contains sep s = true ->
      exists head, s = (head ++ String sep (rsplit_last sep s))%string).
Proof.
  induction s as [|c s (IHno & IHsame & IHsplit)]; cbn.
  - repeat split; auto. discriminate.
  - destruct (contains sep s) eqn:Hs.
    + split; [exact IHno|]. split.
      * destruct (ascii_dec c sep); discriminate.
      * intros _. destruct (IHsplit eq_refl) as [head Hhead].
        exists (String c head). cbn. now rewrite <- Hhead.
    + destruct (ascii_dec c sep) as [->|Hne].
      * split; [exact Hs|]. split; [discriminate|].
        intros _. exists EmptyString. reflexivity.
      * split.
        -- cbn. destruct (ascii_dec c sep); [contradiction | exact Hs].
        -- split; [reflexivity | discriminate].
Qed.

(** X8: [get_type_name] is the [__name__] of the type when it has one;
    otherwise it is what follows the last dot of [str(arg_type)]: it
    contains no dot, [str(arg_type)] ends with a dot followed by it, and
    it is all of [str(arg_type)] when that has no dot. *)
Theorem get_type_name_last_segment
    (dunder_name : pytype -> option string) (str : pytype -> string)
    (arg_type : pytype) :
  (forall n, dunder_name arg_type = Some n ->
     get_type_name dunder_name str arg_type = n)
  /\ (dunder_name arg_type = None ->
      contains "." (get_type_name dunder_name str arg_type) = false
      /\ (contains "." (str arg_type) = false ->
          get_type_name dunder_name str arg_type = str arg_type)
      /\ (contains "." (str arg_type) = true ->
          exists head,
            str arg_type
            = (head ++ "." ++ get_type_name dunder_name str arg_type)%string)).
Proof.
  unfold get_type_name. split.
  - intros n ->. reflexivity.
  - intros ->. apply rsplit_last_spec.
Qed.

(** ** Registration *)

Lemma mapM_raise (A B : Type) (f : A -> result B) (l : list A) (e : exn) :
  mapM f l = Raise e -> exists x, In x l /\ f x = Raise e.
Proof.
  induction l as [|x l IH]; cbn; [discriminate|].
  destruct (f x) as [y|e'] eqn:Hx; cbn.
  - destruct (mapM f l) as [ys|e'']; cbn; [discriminate|].
    intros H. inversion H; subst. destruct (IH eq_refl) as (x' & Hin & Hx').
    eauto.
  - intros H. inversion H; subst. eauto.
Qed.

Lemma Forall2_In_r (A B : Type) (R : A -> B -> Prop) (l : list A) (r : list B) :
  Forall2 R l r -> forall y, In y r -> exists x, In x l /\ R x y.
Proof.
  induction 1 as [|x y l r Hxy _ IH]; intros y' Hin; [contradiction|].
  destruct Hin as [<-|Hin].
  - exists x. split; [now left | assumption].
  - destruct (IH y' Hin) as (x' & Hx' & HR). exists x'. split; [now right | assumption].
Qed.

Lemma get_arg_raises param t name shorthand help default skip e :
  get_arg param t name shorthand help default skip = Raise e ->
  exists t', e = UnsupportedTypeError param t'.
Proof.
  destruct skip.
  - rewrite get_arg_skip. discriminate.
  - destruct (get_arg_total t param name shorthand help default)
      as [[_ [a Ha]] | [_ (t' & _ & He)]]; intros H.
    + congruence.
    + rewrite He in H. inversion H. eauto.
Qed.

Lemma add_missing_mono ps : forall A k,
  dict_mem A k = true -> dict_mem (add_missing ps A) k = true.
Proof.
  induction ps as [|p ps IH]; intros A k Hk; [exact Hk|].
  change (add_missing (p :: ps) A)
    with (add_missing ps
            (if dict_mem A (Param.name p) then A
             else dict_set A (Param.name p) Arg.empty)).
  apply IH. destruct (dict_mem A (Param.name p)); [exact Hk|].
  unfold dict_mem in *. rewrite dict_get_set.
  destruct (string_dec (Param.name p) k); [reflexivity | exact Hk].
Qed.

Lemma add_missing_has ps : forall A p,
  In p ps -> dict_mem (add_missing ps A) (Param.name p) = true.
Proof.
  induction ps as [|p0 ps IH]; intros A p Hin; [contradiction|].
  change (add_missing (p0 :: ps) A)
    with (add_missing ps
            (if dict_mem A (Param.name p0) then A
             else dict_set A (Param.name p0) Arg.empty)).
  destruct Hin as [->|Hin]; [|now apply IH].
  apply add_missing_mono.
  destruct (dict_mem A (Param.name p)) eqn:Hm; [exact Hm|].
  unfold dict_mem. now rewrite dict_get_set_same.
Qed.

Lemma add_missing_items ps : forall A k x,
  In (k, x) (add_missing ps A) ->
  In (k, x) A \/ (x = Arg.empty /\ dict_get A k = None).
Proof.
  induction ps as [|p ps IH]; intros A k x Hin; [now left|].
  change (add_missing (p :: ps) A)
    with (add_missing ps
            (if dict_mem A (Param.name p) then A
             else dict_set A (Param.name p) Arg.empty)) in Hin.
  apply IH in Hin. destruct (dict_mem A (Param.name p)) eqn:Hm; [exact Hin|].
  destruct Hin as [Hin | [Hx Hnone]].
  - rewrite dict_set_new in Hin by assumption.
    apply in_app_or in Hin as [Hin | [Heq | []]]; [now left|].
    inversion Heq; subst. right. split; [reflexivity|].
    unfold dict_mem in Hm. destruct (dict_get A (Param.name p)); [discriminate | reflexivity].
  - right. split; [assumption|]. rewrite dict_get_set in Hnone.
    destruct (string_dec (Param.name p) k); [discriminate | assumption].
Qed.

Lemma dict_get_In (V : Type) (d : dict V) (k : string) (v : V) :
  NoDup (keys d) -> In (k, v) d -> dict_get d k = Some v.
Proof.
  induction d as [|[k0 v0] r IH]; cbn; [contradiction|].
  intros Hnd Hin. apply NoDup_cons_iff in Hnd as [Hfresh Hnd].
  destruct Hin as [Heq | Hin].
  - inversion Heq; subst. destruct (string_dec k k); congruence.
  - destruct (string_dec k0 k) as [->|]; [|now apply IH].
    exfalso. apply Hfresh. change k with (fst (k, v)). now apply in_map.
Qed.

Lemma keys_dict_set (V : Type) (d : dict V) (k : string) (v : V) :
  keys (dict_set d k v) = if dict_mem d k then keys d else keys d ++ [k].
Proof.
  unfold dict_mem, keys. induction d as [|[k0 v0] r IH]; cbn; [reflexivity|].
  destruct (string_dec k0 k) as [->|Hne]; cbn; [reflexivity|].
  rewrite IH. destruct (dict_get r k); reflexivity.
Qed.

Section Decorator.
Variable dunder_name : pytype -> option string.
Variable str : pytype -> string.

Lemma cli_arg_names self sig_types sig_defaults param arg a :
  cli_arg dunder_name str self sig_types sig_defaults (param, arg) = Ok a ->
  exists declared,
    dict_get sig_types param = Some declared
    /\ ArgparseArg.id a = param
    /\ ArgparseArg.name a = Arg.option arg
    /\ (ArgparseArg.shorthand a = Arg.short arg \/ ArgparseArg.shorthand a = None)
    /\ ArgparseArg.help a
       = Some (help_text
                 (get_type_name dunder_name str
                    match converters_get self declared (Arg.converter arg) with
                    | Some c => c
                    | None => declared
                    end)
                 (Arg.help arg)).
Proof.
  unfold cli_arg, dict_item.
  destruct (dict_get sig_types param) as [declared|] eqn:Ht; [|discriminate].
  destruct (dict_get sig_defaults param) as [default|] eqn:Hd; [|discriminate].
  cbn [bind]. intros H. exists declared. split; [reflexivity|].
  destruct (converters_get self declared (Arg.converter arg)) as [c|]; cbn in H.
  - rewrite get_arg_skip in H. cbn in H. inversion H; subst; cbn. auto.
  - destruct (get_arg param declared _ _ _ default false) as [a0|e] eqn:Hg;
      [|discriminate].
    cbn in H. inversion H; subst; cbn.
    destruct (get_arg_fields _ _ _ _ _ _ _ Hg) as (Hid & Hn & Hh & Hs & _).
    rewrite Hh. auto.
Qed.

Lemma cli_arg_raises self f overrides param arg e :
  cli_arg dunder_name str self (sig_types_of f overrides)
    (sig_defaults_of f overrides) (param, arg) = Raise e ->
  (e = KeyError param /\ ~ In param (parameter_names f))
  \/ exists t, e = UnsupportedTypeError param t.
Proof.
  unfold cli_arg, dict_item.
  destruct (dict_get (sig_types_of f overrides) param) as [declared|] eqn:Ht.
  - apply sig_types_of_keys in Ht.
    apply in_map_iff in Ht as (p & <- & Hp).
    destruct (dict_get (sig_defaults_of f overrides) (Param.name p))
      as [default|] eqn:Hd.
    + cbn [bind]. 
      destruct (get_arg _ _ _ _ _ _ _) as [a0|e'] eqn:Hg; cbn; [discriminate|].
      intros H. inversion H; subst. right. eapply get_arg_raises; eauto.
    + exfalso. unfold sig_defaults_of, signature_dicts in Hd.
      rewrite signature_fold in Hd. cbn [fst snd] in Hd.
      destruct (in_dec string_dec (Param.name p)
                  (map Param.name (Callable.parameters f))) as [Hi|Hn].
      * clear - Hd Hi. revert Hd. generalize (@nil (string * pyvalue)).
        induction (Callable.parameters f) as [|q ps IH]; intros D Hd;
          [contradiction|].
        cbn in Hd.
        destruct (in_dec string_dec (Param.name p) (map Param.name ps)) as [Hin|Hnin].
        -- now apply IH in Hd.
        -- fold (record_all recorded_default ps
                   (dict_set D (Param.name q) (recorded_default q))) in Hd.
           rewrite record_all_other in Hd by assumption.
           rewrite dict_get_set in Hd.
           destruct Hi as [Heq | Hin]; [|contradiction].
           destruct (string_dec (Param.name q) (Param.name p)); congruence.
      * apply Hn. now apply in_map.
  - cbn [bind]. intros H. inversion H; subst. left. split; [reflexivity|].
    intros Hin. apply in_map_iff in Hin as (p & <- & Hp).
    unfold sig_types_of, signature_dicts in Ht. rewrite signature_fold in Ht.
    cbn [fst] in Ht. revert Ht. generalize (@nil (string * pytype)).
    assert (Hi : In (Param.name p) (map Param.name (Callable.parameters f)))
      by now apply in_map.
    clear Hp. induction (Callable.parameters f) as [|q ps IH]; intros T Ht;
      [contradiction|].
    cbn in Ht.
    destruct (in_dec string_dec (Param.name p) (map Param.name ps)) as [Hin|Hnin].
    + now apply IH in Ht.
    + fold (record_all Param.annotation ps
              (dict_set T (Param.name q) (Param.annotation q))) in Ht.
      rewrite record_all_other in Ht by assumption.
      rewrite dict_get_set in Ht.
      destruct Hi as [Heq | Hin]; [|contradiction].
      destruct (string_dec (Param.name q) (Param.name p)); congruence.
Qed.

Lemma command_unfold self name overrides allow_extra f :
  _command dunder_name str self name overrides allow_extra f
  = (cli_args <- mapM (cli_arg dunder_name str self (sig_types_of f overrides)
                         (sig_defaults_of f overrides))
                   (add_missing (Callable.parameters f) overrides) ;;
     Ok (Radicli.register self name
           (Command.mk name f cli_args (Callable.doc f) allow_extra))).
Proof.
  unfold _command, cli_wrapper, sig_types_of, sig_defaults_of, signature_dicts.
  rewrite signature_fold. reflexivity.
Qed.

(** X9: an override for a name that is not a parameter of the function
    makes the registration fail: the decorator raises, a [KeyError] for
    an override key that is no parameter or the [UnsupportedTypeError]
    of a parameter, and no command is registered. *)
Theorem unknown_override_fails self name overrides allow_extra f k :
  In k (keys overrides) ->
  ~ In k (parameter_names f) ->
  exists e,
    _command dunder_name str self name overrides allow_extra f = Raise e
    /\ ((exists k', e = KeyError k' /\ ~ In k' (parameter_names f))
        \/ exists param t, e = UnsupportedTypeError param t).
Proof.
  intros Hk Hnot. rewrite command_unfold.
  destruct (mapM _ (add_missing (Callable.parameters f) overrides))
    as [cli_args|e] eqn:Hm; cbn.
  - exfalso. apply cli_args_ids in Hm as [_ Hdecl].
    destruct (Hdecl k) as [t Ht].
    + apply dict_mem_In. apply add_missing_mono. now apply dict_mem_In.
    + apply Hnot. eapply sig_types_of_keys; eauto.
  - exists e. split; [reflexivity|].
    apply mapM_raise in Hm as ([param arg] & _ & Hx).
    apply cli_arg_raises in Hx as [[-> Hn] | [t ->]]; eauto.
Qed.

End Decorator.

Lemma unknown_override_fails_witness :
  command sample_name sample_str (new_Radicli "cli") "c" [("z", Arg.empty)]
    example_func = Raise (KeyError "z")
  /\ exists e,
       command sample_name sample_str (new_Radicli "cli") "c" [("z", Arg.empty)]
         example_func = Raise e.
Proof.
  split; [reflexivity|].
  destruct (unknown_override_fails sample_name sample_str (new_Radicli "cli")
              "c" [("z", Arg.empty)] false example_func "z")
    as (e & He & _).
  - left; reflexivity.
  - cbn; intuition discriminate.
  - exists e. exact He.
Defined.

Lemma unknown_override_reaches_error
    (dunder_name : pytype -> option string) (str : pytype -> string)
    self name overrides allow_extra f k :
  In k (keys overrides) ->
  ~ In k (parameter_names f) ->
  exists e, _command dunder_name str self name overrides allow_extra f = Raise e.
Proof.
  intros Hk Hnot. rewrite command_unfold.
  destruct (mapM _ (add_missing (Callable.parameters f) overrides))
    as [cli_args|e] eqn:Hm; cbn; [|eauto].
  exfalso. apply cli_args_ids in Hm as [_ Hdecl].
  destruct (Hdecl k) as [t Ht].
  - apply dict_mem_In. apply add_missing_mono. now apply dict_mem_In.
  - apply Hnot. eapply sig_types_of_keys; eauto.
Qed.

Section Registry.
Variable dunder_name : pytype -> option string.
Variable str : pytype -> string.

(** X10: a successful registration stores, under the given name, a
    command with that name, the function, its docstring as description
    and the [allow_extra] of the decorator; every other entry of the
    registry and the other fields of the object stay as they were; a
    name registered before keeps its place and gets the new command, a
    new name goes last. *)
Theorem registration_updates_one_entry self name overrides allow_extra f self' :
  _command dunder_name str self name overrides allow_extra f = Ok self' ->
  (exists cmd,
     dict_get (Radicli.registry self') name = Some cmd
     /\ Command.name cmd = name
     /\ Command.func cmd = f
     /\ Command.description cmd = Callable.doc f
     /\ Command.allow_extra cmd = allow_extra)
  /\ (forall other, other <> name ->
        dict_get (Radicli.registry self') other
        = dict_get (Radicli.registry self) other)
  /\ keys (Radicli.registry self')
     = (if dict_mem (Radicli.registry self) name
        then keys (Radicli.registry self)
        else keys (Radicli.registry self) ++ [name])
  /\ Radicli.converters self' = Radicli.converters self
  /\ Radicli.extra_key self' = Radicli.extra_key self
  /\ Radicli.help self' = Radicli.help self.
Proof.
  rewrite command_unfold.
  destruct (mapM _ _) as [cli_args|e]; cbn; [|discriminate].
  intros H. inversion H; subst self'. clear H. cbn.
  split; [|split; [|split]].
  - eexists. split; [apply dict_get_set_same|]. cbn. auto.
  - intros other Hne. rewrite dict_get_set.
    destruct (string_dec name other); congruence.
  - apply keys_dict_set.
  - auto.
Qed.

(** X11: in a registered command every descriptor takes its external
    name from the override of its parameter, and its shorthand too unless
    it lost it; the descriptor of a parameter without an override has
    neither, so that parameter is positional. *)
Theorem descriptor_names_from_overrides
    self name overrides allow_extra f self' cmd a :
  NoDup (keys overrides) ->
  _command dunder_name str self name overrides allow_extra f = Ok self' ->
  dict_get (Radicli.registry self') name = Some cmd ->
  In a (Command.args cmd) ->
  match dict_get overrides (ArgparseArg.id a) with
  | Some arg =>
      ArgparseArg.name a = Arg.option arg
      /\ (ArgparseArg.shorthand a = Arg.short arg \/ ArgparseArg.shorthand a = None)
  | None =>
      ArgparseArg.name a = None
      /\ ArgparseArg.shorthand a = None
      /\ positional a
      /\ In (ArgparseArg.id a) (parameter_names f)
  end.
Proof.
  intros Hnd H Hget Hin. rewrite command_unfold in H.
  destruct (mapM _ _) as [cli_args|e] eqn:Hm; cbn in H; [|discriminate].
  inversion H; subst self'. clear H. cbn in Hget.
  rewrite dict_get_set_same in Hget. inversion Hget; subst cmd. clear Hget.
  cbn in Hin. apply mapM_ok_each in Hm.
  destruct (Forall2_In_r _ _ _ _ _ Hm a Hin) as ([param arg] & Hitem & Hcli).
  apply cli_arg_names in Hcli as (declared & Hdecl & Hid & Hname & Hshort & _).
  rewrite Hid. apply add_missing_items in Hitem as [Hov | [-> Hnone]].
  - rewrite (dict_get_In _ _ _ _ Hnd Hov). auto.
  - rewrite Hnone. cbn in Hname, Hshort.
    repeat split; auto.
    + destruct Hshort; assumption.
    + unfold positional. now rewrite Hname.
    + eapply sig_types_of_keys; eauto.
Qed.

(** X12: the help of a registered descriptor is never absent: it is the
    name of the type in parentheses, a space, and the help text of the
    override (nothing when there is none); the type named is the
    converter when one was found and the declared type otherwise, for a
    union the union itself. *)
Theorem registered_help_text self sig_types sig_defaults param arg a :
  cli_arg dunder_name str self sig_types sig_defaults (param, arg) = Ok a ->
  exists declared,
    dict_get sig_types param = Some declared
    /\ ArgparseArg.help a
       = Some ("(" ++ get_type_name dunder_name str
                        match converters_get self declared (Arg.converter arg) with
                        | Some c => c
                        | None => declared
                        end
               ++ ") " ++ or_empty (Arg.help arg))%string.
Proof.
  intros H. apply cli_arg_names in H as (declared & Hdecl & _ & _ & _ & Hhelp).
  exists declared. split; [assumption|]. exact Hhelp.
Qed.

(** X13: the decorator keeps the override dictionary it has filled in.
    After it was applied to a function, the dictionary mentions every
    parameter of that function; applied again to a function that lacks
    one of them, the decorator raises and registers nothing. *)
Theorem decorator_reuse_fails self name overrides allow_extra f1 f2 p :
  In p (Callable.parameters f1) ->
  ~ In (Param.name p) (parameter_names f2) ->
  let args := snd (signature_dicts f1 overrides) in
  In (Param.name p) (keys args)
  /\ exists e, _command dunder_name str self name args allow_extra f2 = Raise e.
Proof.
  intros Hp Hnot args.
  assert (Hin : In (Param.name p) (keys args)).
  { subst args. unfold signature_dicts. rewrite signature_fold. cbn [snd].
    apply dict_mem_In. now apply add_missing_has. }
  split; [exact Hin|].
  destruct (unknown_override_reaches_error dunder_name str
              self name args allow_extra f2 (Param.name p) Hin Hnot) as [e He].
  eauto.
Qed.

End Registry.


Lemma registration_updates_one_entry_witness :
  exists self' cmd,
    command_with_extra sample_name sample_str (new_Radicli "cli") "c" []
      example_func = Ok self'
    /\ dict_get (Radicli.registry self') "c" = Some cmd
    /\ Command.allow_extra cmd = true
    /\ keys (Radicli.registry self') = ["c"].
Proof.
  eexists.
  destruct (registration_updates_one_entry sample_name sample_str
              (new_Radicli "cli") "c" [] true example_func _ eq_refl)
    as ((cmd & Hget & _ & _ & _ & Hextra) & _ & Hkeys & _).
  exists cmd. split; [reflexivity|]. repeat split; assumption.
Defined.

Lemma descriptor_names_from_overrides_witness :
  let a :=
    ArgparseArg.mk "a" None None (Some (Plain Cstr)) Ellipsis None None
      (Some "(str) ") in
  ArgparseArg.name a = None /\ ArgparseArg.shorthand a = None
  /\ positional a /\ In (ArgparseArg.id a) (parameter_names example_func).
Proof.
  cbv zeta.
  refine (descriptor_names_from_overrides sample_name sample_str
            (new_Radicli "cli") "c"
            [("b", Arg.mk (Some "--b") (Some "-b") None None)] false example_func
            _ _
            (ArgparseArg.mk "a" None None (Some (Plain Cstr)) Ellipsis None None
               (Some "(str) "))
            _ eq_refl _ _).
  - repeat constructor; cbn; intuition discriminate.
  - reflexivity.
  - right; left; reflexivity.
Defined.

Lemma registered_help_text_witness :
  exists declared,
    dict_get (sig_types_of example_func []) "b" = Some declared
    /\ Some "(str) Second"
       = Some ("(" ++ get_type_name sample_name sample_str
                        match converters_get (new_Radicli "cli") declared None with
                        | Some c => c
                        | None => declared
                        end
               ++ ") " ++ or_empty (Some "Second"))%string.
Proof.
  apply (registered_help_text sample_name sample_str (new_Radicli "cli")
           (sig_types_of example_func []) (sig_defaults_of example_func [])
           "b" (Arg.mk None None (Some "Second") None)
           (ArgparseArg.mk "b" None None (Some (Plain Cstr)) PyNone None None
              (Some "(str) Second"))).
  reflexivity.
Defined.

Lemma decorator_reuse_fails_witness :
  command sample_name sample_str (new_Radicli "cli") "second"
    (snd (signature_dicts example_func []))
    (Callable.mk [Param.mk "a" (Plain Cstr) None] None)
  = Raise (KeyError "b")
  /\ In "b" (keys (snd (signature_dicts example_func []))).
Proof.
  split; [reflexivity|].
  apply (decorator_reuse_fails sample_name sample_str (new_Radicli "cli")
           "second" [] false example_func
           (Callable.mk [Param.mk "a" (Plain Cstr) None] None)
           (Param.mk "b" (Plain Cstr) (Some PyNone))).
  - right; left; reflexivity.
  - cbn; intuition discriminate.
Defined.

(** ** A flag without a name *)

Lemma Forall2_In_l (A B : Type) (R : A -> B -> Prop) (l : list A) (r : list B) :
  Forall2 R l r -> forall x, In x l -> exists y, In y r /\ R x y.
Proof.
  induction 1 as [|x y l r Hxy _ IH]; intros x' Hin; [contradiction|].
  destruct Hin as [<-|Hin].
  - exists y. split; [now left | assumption].
  - destruct (IH x' Hin) as (y' & Hy' & HR). exists y'. split; [now right | assumption].
Qed.

Lemma dict_get_Some_In (V : Type) (d : dict V) (k : string) (v : V) :
  dict_get d k = Some v -> In (k, v) d.
Proof.
  induction d as [|[k0 v0] r IH]; cbn; [discriminate|].
  destruct (string_dec k0 k) as [->|Hne].
  - intros H. inversion H; subst. now left.
  - intros H. right. now apply IH.
Qed.

Section PositionalFlag.
Variable dunder_name : pytype -> option string.
Variable str : pytype -> string.

(** C8, at the failing inputs: a function with a parameter declared
    [bool], registered with [command_with_extra] and without an override
    for that parameter (and without a converter for [bool]).  The
    registration succeeds and the command accepts extra tokens, but the
    descriptor of the parameter is a flag without a name, and the parser
    that [parse] builds for the command has for it an argument added
    with no flag string, [action = "store_true"] and [nargs = "?"]: a
    call the [store_true] action refuses, so that [add_argument] raises
    and no token list is parsed, with or without extra tokens. *)
Theorem extra_tokens_lost_with_positional_flag self name overrides f p self' :
  NoDup (parameter_names f) ->
  In p (Callable.parameters f) ->
  Param.annotation p = Plain Cbool ->
  Radicli.converters self (Plain Cbool) = None ->
  dict_get overrides (Param.name p) = None ->
  Param.name p <> Radicli.extra_key self ->
  command_with_extra dunder_name str self name overrides f = Ok self' ->
  exists cmd,
    dict_get (Radicli.registry self') name = Some cmd
    /\ Command.allow_extra cmd = true
    /\ let a :=
         ArgparseArg.mk (Param.name p) None None None (PyBool false)
           (Some "store_true") None
           (Some (help_text (get_type_name dunder_name str (Plain Cbool)) None)) in
       let parser :=
         build_parser self' (Command.args cmd) (Command.description cmd) in
       In a (Command.args cmd)
       /\ to_argparse a
          = ([], [ ("dest", KwValue (PyStr (Param.name p)));
                   ("action", KwValue (PyStr "store_true"));
                   ("help",
                    KwValue (PyStr (help_text
                                      (get_type_name dunder_name str (Plain Cbool))
                                      None)));
                   ("default", KwValue (PyBool false));
                   ("nargs", KwValue (PyStr "?")) ])
       /\ In (to_argparse a) (ArgumentParser.arguments parser)
       /\ existsb store_true_refuses (ArgumentParser.arguments parser) = true.
Proof.
  intros Hnd Hp Hbool Hconv Hov Hkey H.
  unfold command_with_extra in H. rewrite command_unfold in H.
  destruct (mapM _ _) as [cli_args|e] eqn:Hm; cbn in H; [|discriminate].
  inversion H; subst self'. clear H.
  eexists. split; [cbn; apply dict_get_set_same|]. split; [reflexivity|].
  cbv zeta. cbn [Command.args Command.description].
  set (a := ArgparseArg.mk (Param.name p) None None None (PyBool false)
              (Some "store_true") None
              (Some (help_text (get_type_name dunder_name str (Plain Cbool)) None))).
  assert (Hitem : In (Param.name p, Arg.empty)
                    (add_missing (Callable.parameters f) overrides)).
  { pose proof (add_missing_has (Callable.parameters f) overrides p Hp) as Hmem.
    unfold dict_mem in Hmem.
    destruct (dict_get (add_missing (Callable.parameters f) overrides)
                (Param.name p)) as [x|] eqn:Hx; [|discriminate].
    apply dict_get_Some_In in Hx.
    destruct (add_missing_items _ _ _ _ Hx) as [Hin | [-> _]]; [|exact Hx].
    exfalso. apply dict_get_None in Hov. apply Hov.
    change (Param.name p) with (fst (Param.name p, x)). now apply in_map. }
  assert (Ha : In a cli_args).
  { apply mapM_ok_each in Hm.
    destruct (Forall2_In_l _ _ _ _ _ Hm _ Hitem) as (y & Hy & Hcli).
    rewrite (bool_parameter_is_flag dunder_name str self f overrides p Arg.empty
               Hnd Hp Hbool) in Hcli.
    - inversion Hcli; subst y. exact Hy.
    - unfold converters_get. now rewrite Hconv. }
  assert (Hin : In (to_argparse a)
                  (ArgumentParser.arguments
                     (build_parser (Radicli.register self name
                                      (Command.mk name f cli_args (Callable.doc f) true))
                        cli_args (Callable.doc f)))).
  { rewrite build_parser_arguments. cbn [ArgumentParser.arguments].
    apply in_map. unfold grammar_descriptors. apply filter_In.
    split; [exact Ha|]. cbn [ArgparseArg.id a Radicli.extra_key Radicli.register].
    destruct (string_dec _ _); [contradiction | reflexivity]. }
  split; [exact Ha|]. split; [reflexivity|]. split; [exact Hin|].
  apply existsb_exists. exists (to_argparse a). split; [exact Hin | reflexivity].
Qed.

End PositionalFlag.

(** [def build(verbose: bool)] registered with [command_with_extra] and
    no override: the parser of the command has one argument, the refused
    one. *)
Lemma extra_tokens_lost_with_positional_flag_witness :
  match command_with_extra sample_name sample_str (new_Radicli "cli") "build" []
          (Callable.mk [Param.mk "verbose" (Plain Cbool) None] None) with
  | Ok self' =>
      option_map
        (fun cmd =>
           let arguments :=
             ArgumentParser.arguments
               (build_parser self' (Command.args cmd) (Command.description cmd)) in
           (Command.allow_extra cmd, arguments))
        (dict_get (Radicli.registry self') "build")
  | Raise _ => None
  end
  = Some (true,
          [ ([], [ ("dest", KwValue (PyStr "verbose"));
                   ("action", KwValue (PyStr "store_true"));
                   ("help", KwValue (PyStr "(bool) "));
                   ("default", KwValue (PyBool false));
                   ("nargs", KwValue (PyStr "?")) ]) ])
  /\ exists self' cmd,
       command_with_extra sample_name sample_str (new_Radicli "cli") "build" []
         (Callable.mk [Param.mk "verbose" (Plain Cbool) None] None) = Ok self'
       /\ dict_get (Radicli.registry self') "build" = Some cmd
       /\ Command.allow_extra cmd = true
       /\ existsb store_true_refuses
            (ArgumentParser.arguments
               (build_parser self' (Command.args cmd) (Command.description cmd)))
          = true.
Proof.
  split; [reflexivity|].
  eexists.
  destruct (extra_tokens_lost_with_positional_flag sample_name sample_str
              (new_Radicli "cli") "build" []
              (Callable.mk [Param.mk "verbose" (Plain Cbool) None] None)
              (Param.mk "verbose" (Plain Cbool) None)
              (Radicli.register (new_Radicli "cli") "build"
                 (Command.mk "build"
                    (Callable.mk [Param.mk "verbose" (Plain Cbool) None] None)
                    [ArgparseArg.mk "verbose" None None None (PyBool false)
                       (Some "store_true") None (Some "(bool) ")]
                    None true)))
    as (cmd & Hget & Hextra & _ & _ & _ & Hrefused);
    [ repeat constructor; cbn; intuition discriminate
    | left; reflexivity
    | reflexivity
    | reflexivity
    | reflexivity
    | discriminate
    | reflexivity
    | ].
  exists cmd. repeat split; assumption.
Defined.

(** ** The two modes of [parse] *)

Lemma grammar_descriptors_app self (l1 l2 : list ArgparseArg.t) :
  grammar_descriptors self (l1 ++ l2)
  = grammar_descriptors self l1 ++ grammar_descriptors self l2.
Proof. unfold grammar_descriptors. apply filter_app. Qed.

(** X19: the parser that [parse] builds has the given description and,
    as its arguments, the projections of the descriptors that do not
    carry the reserved identifier, each kept at its place in the order
    of the descriptor list; so no argument of it binds the reserved
    key. *)
Theorem reserved_key_never_in_grammar self arg_info description :
  build_parser self arg_info description
  = ArgumentParser.mk description
      (map to_argparse (grammar_descriptors self arg_info))
  /\ (forall d,
        In d (grammar_descriptors self arg_info)
        <-> In d arg_info /\ ArgparseArg.id d <> Radicli.extra_key self)
  /\ (forall before x after,
        ArgparseArg.id x <> Radicli.extra_key self ->
        grammar_descriptors self (before ++ x :: after)
        = grammar_descriptors self before ++ x :: grammar_descriptors self after)
  /\ (forall a,
        In a (ArgumentParser.arguments (build_parser self arg_info description)) ->
        dest_of a <> Some (KwValue (PyStr (Radicli.extra_key self)))).
Proof.
  split; [apply build_parser_arguments|]. split; [|split].
  - intros d. unfold grammar_descriptors. rewrite filter_In.
    destruct (string_dec (ArgparseArg.id d) (Radicli.extra_key self));
      intuition congruence.
  - intros before x after Hx. rewrite grammar_descriptors_app.
    f_equal. unfold grammar_descriptors. cbn [filter].
    destruct (string_dec _ _); [contradiction | reflexivity].
  - intros a. apply reserved_key_not_a_dest.
Qed.

Section Modes.
Variable parse_known_args :
  ArgumentParser.t -> list string -> outcome (dict pyvalue * list string).

(** X14: the two modes of [parse] differ by the leftover tokens only.
    When the strict parse returns a mapping, the parse with
    [allow_extra] returns the same mapping with an empty list under the
    reserved key; an exit of the parse with [allow_extra] is an exit of
    the strict parse with the same status; and the strict parse exits
    where the other one returns only with status 2 and a non-empty list
    under the reserved key. *)
Theorem parse_modes_differ_by_extra self args arg_info description :
  (forall values,
     parse parse_known_args self args arg_info description false = Parsed values ->
     parse parse_known_args self args arg_info description true
     = Parsed (dict_set values (Radicli.extra_key self) (PyList [])))
  /\ (forall status,
        parse parse_known_args self args arg_info description true
        = SystemExit status ->
        parse parse_known_args self args arg_info description false
        = SystemExit status)
  /\ (forall values,
        parse parse_known_args self args arg_info description true = Parsed values ->
        exists extra,
          dict_get values (Radicli.extra_key self) = Some (PyList (map PyStr extra))
          /\ (extra <> [] ->
              parse parse_known_args self args arg_info description false
              = SystemExit 2)).
Proof.
  unfold parse, parse_args.
  destruct (parse_known_args (build_parser self arg_info description) args)
    as [[namespace extra]|status].
  - split; [|split].
    + intros values H. destruct extra; [|discriminate]. inversion H; subst.
      reflexivity.
    + discriminate.
    + intros values H. inversion H; subst. exists extra.
      split; [apply dict_get_set_same|].
      intros Hne. destruct extra; [contradiction | reflexivity].
  - split; [|split]; try discriminate. intros s H. exact H.
Qed.

(** X15: a descriptor that carries the reserved identifier is never
    offered to the parser: wherever it stands in the descriptor list,
    [parse] returns what it returns without it. *)
Theorem reserved_descriptor_is_ignored
    self args before x after description allow_extra :
  ArgparseArg.id x = Radicli.extra_key self ->
  parse parse_known_args self args (before ++ x :: after) description allow_extra
  = parse parse_known_args self args (before ++ after) description allow_extra.
Proof.
  intros Hx.
  assert (Hb : build_parser self (before ++ x :: after) description
               = build_parser self (before ++ after) description).
  { rewrite !build_parser_arguments, !grammar_descriptors_app.
    do 3 f_equal. unfold grammar_descriptors at 1. cbn [filter].
    rewrite Hx. destruct (string_dec _ _); [reflexivity | contradiction]. }
  unfold parse, parse_args. rewrite Hb. reflexivity.
Qed.

(** ** Dispatch *)

(** X16: [run] calls a function only for a command that is registered
    under the second element of [argv], which is not [--help]: the
    function is that command's, and the keyword arguments are what
    [parse] returns for the rest of [argv] with the command's
    descriptors, description and [allow_extra].  It fails on the
    registry only when that name is not registered. *)
Theorem run_dispatches_registered_command self argv :
  (forall func values,
     run parse_known_args self argv = Calls func values ->
     exists prog command args cmd,
       argv = prog :: command :: args
       /\ command <> "--help"
       /\ dict_get (Radicli.registry self) command = Some cmd
       /\ func = Command.func cmd
       /\ parse parse_known_args self args (Command.args cmd)
            (Command.description cmd) (Command.allow_extra cmd)
          = Parsed values)
  /\ (forall command,
        run parse_known_args self argv = NotRegistered command ->
        exists prog args,
          argv = prog :: command :: args
          /\ command <> "--help"
          /\ dict_get (Radicli.registry self) command = None).
Proof.
  destruct argv as [|prog [|command args]]; cbn; try (split; discriminate).
  destruct (String.eqb command "--help") eqn:Hh; [split; discriminate|].
  apply String.eqb_neq in Hh.
  destruct (dict_get (Radicli.registry self) command) as [cmd|] eqn:Hc.
  - split; [|destruct (parse _ _ _ _ _ _); discriminate].
    intros func values H.
    destruct (parse _ _ _ _ _ _) as [v|s] eqn:Hp; [|discriminate].
    inversion H; subst. exists prog, command, args, cmd. auto.
  - split; [discriminate|]. intros c H. inversion H; subst. eauto.
Qed.

(** X17: without a command, or with [--help] in its place, [run] only
    prints, whatever follows and even when a command is registered under
    the name [--help]: first the help text between two newlines, when it
    is not empty, and then, when the registry is not empty, the heading
    and one line for every registered command, name, tab and
    description, in the order of the registry; nothing else. *)
Theorem run_help_lists_commands self argv :
  nth_error argv 1 = None \/ nth_error argv 1 = Some "--help" ->
  exists lines,
    run parse_known_args self argv = Prints lines
    /\ lines
       = (if truthy (Radicli.help self)
          then [(newline ++ or_empty (Radicli.help self) ++ newline)%string]
          else [])
         ++ (match Radicli.registry self with
             | [] => []
             | _ :: _ =>
                 "Available commands:"
                 :: map (fun entry =>
                           (fst entry ++ tab
                            ++ or_empty (Command.description (snd entry)))%string)
                      (Radicli.registry self)
             end)
    /\ (Radicli.registry self = [] ->
        lines = (if truthy (Radicli.help self)
                 then [(newline ++ or_empty (Radicli.help self) ++ newline)%string]
                 else []))
    /\ (Radicli.registry self <> [] -> In "Available commands:" lines)
    /\ (forall name cmd,
          In (name, cmd) (Radicli.registry self) ->
          In (name ++ tab ++ or_empty (Command.description cmd))%string lines)
    /\ List.length lines
       = (if truthy (Radicli.help self) then 1 else 0)
         + (match Radicli.registry self with
            | [] => 0
            | commands => S (List.length commands)
            end).
Proof.
  intros Hreq. exists (print_help self). split.
  - destruct argv as [|prog [|command args]]; cbn; try reflexivity.
    cbn in Hreq. destruct Hreq as [H|H]; [discriminate|].
    inversion H; subst. reflexivity.
  - unfold print_help. destruct (Radicli.registry self) as [|entry rest] eqn:Hr.
    + repeat split.
      * intros _. now rewrite app_nil_r.
      * intros Hne. contradiction.
      * intros name cmd [].
      * rewrite app_nil_r. destruct (truthy _); reflexivity.
    + repeat split.
      * discriminate.
      * intros _. apply in_or_app. right. now left.
      * intros name cmd Hin. apply in_or_app. right. right.
        change (name ++ tab ++ or_empty (Command.description cmd))%string
          with (command_line (name, cmd)).
        now apply in_map.
      * rewrite length_app. cbn [List.length]. rewrite length_map.
        destruct (truthy _); reflexivity.
Qed.

End Modes.

Section RegisterThenRun.
Variable dunder_name : pytype -> option string.
Variable str : pytype -> string.
Variable parse_known_args :
  ArgumentParser.t -> list string -> outcome (dict pyvalue * list string).

(** X18: a command that was just registered is dispatched to its own
    function: for a name other than [--help], [run] on that name parses
    the remaining tokens with the descriptors registered for it, the
    docstring of the function as description and the [allow_extra] of the
    decorator, calls the function with the result, and exits with the
    parser's status when the parse fails. *)
Theorem registered_command_runs
    self name overrides allow_extra f self' prog tokens :
  _command dunder_name str self name overrides allow_extra f = Ok self' ->
  name <> "--help" ->
  exists cmd,
    dict_get (Radicli.registry self') name = Some cmd
    /\ Command.func cmd = f
    /\ run parse_known_args self' (prog :: name :: tokens)
       = match parse parse_known_args self' tokens (Command.args cmd)
                 (Callable.doc f) allow_extra with
         | Parsed values => Calls f values
         | SystemExit status => Exits status
         end.
Proof.
  intros H Hname. rewrite command_unfold in H.
  destruct (mapM _ _) as [cli_args|e]; cbn in H; [|discriminate].
  inversion H; subst self'. clear H.
  eexists. split; [cbn; apply dict_get_set_same|]. split; [reflexivity|].
  cbn [run]. apply String.eqb_neq in Hname. rewrite Hname.
  cbn [Radicli.registry Radicli.register]. rewrite dict_get_set_same.
  reflexivity.
Qed.

End RegisterThenRun.

(** [def build(verbose: bool, _extra: List[str]): ...], registered with
    [command_with_extra("build", verbose=Arg("--verbose"))]. *)
Lemma reserved_descriptor_is_ignored_witness :
  parse sample_parse_known_args (new_Radicli "cli") ["--verbose"; "x"]
    ([ArgparseArg.mk "verbose" (Some "--verbose") None None (PyBool false)
        (Some "store_true") None None]
     ++ ArgparseArg.mk "_extra" None None (Some (Plain Cstr)) Ellipsis
          (Some "append") None None :: [])
    None true
  = Parsed [("verbose", PyBool true); ("_extra", PyList [PyStr "x"])].
Proof.
  rewrite (reserved_descriptor_is_ignored sample_parse_known_args
             (new_Radicli "cli") ["--verbose"; "x"]
             [ArgparseArg.mk "verbose" (Some "--verbose") None None (PyBool false)
                (Some "store_true") None None]
             (ArgparseArg.mk "_extra" None None (Some (Plain Cstr)) Ellipsis
                (Some "append") None None)
             [] None true eq_refl).
  reflexivity.
Defined.

Lemma run_help_lists_commands_witness :
  exists self',
    command sample_name sample_str
      (Radicli.mk "cli" (Some "A tool") (fun _ => None) "_extra" [])
      "--help" [] (Callable.mk [] (Some "Shadowed")) = Ok self'
    /\ run sample_parse_known_args self' ["prog"; "--help"; "x"]
       = Prints [ (newline ++ "A tool" ++ newline)%string;
                  "Available commands:";
                  ("--help" ++ tab ++ "Shadowed")%string ].
Proof.
  eexists. split; [reflexivity|].
  destruct (run_help_lists_commands sample_parse_known_args
              (Radicli.register
                 (Radicli.mk "cli" (Some "A tool") (fun _ => None) "_extra" [])
                 "--help"
                 (Command.mk "--help" (Callable.mk [] (Some "Shadowed")) []
                    (Some "Shadowed") false))
              ["prog"; "--help"; "x"] (or_intror eq_refl))
    as (lines & Hrun & Hlines & _).
  transitivity (Prints lines); [exact Hrun|].
  rewrite Hlines. reflexivity.
Defined.

Lemma registered_command_runs_witness :
  exists self',
    command_with_extra sample_name sample_str (new_Radicli "cli") "build"
      [("verbose", Arg.mk (Some "--verbose") None None None)]
      (Callable.mk [Param.mk "verbose" (Plain Cbool) None] (Some "Build it"))
    = Ok self'
    /\ run sample_parse_known_args self' ["prog"; "build"; "--verbose"; "--flag"; "x"]
       = Calls
           (Callable.mk [Param.mk "verbose" (Plain Cbool) None] (Some "Build it"))
           [ ("verbose", PyBool true);
             ("_extra", PyList [PyStr "--flag"; PyStr "x"]) ].
Proof.
  eexists. split; [reflexivity|].
  destruct (registered_command_runs sample_name sample_str sample_parse_known_args
              (new_Radicli "cli") "build"
              [("verbose", Arg.mk (Some "--verbose") None None None)] true
              (Callable.mk [Param.mk "verbose" (Plain Cbool) None] (Some "Build it"))
              _ "prog" ["--verbose"; "--flag"; "x"] eq_refl
              ltac:(discriminate))
    as (cmd & Hget & _ & Hrun).
  cbn in Hget. inversion Hget; subst cmd. exact Hrun.
Defined.
